(** * auto24_api: the retry/extraction loop of [Auto24API]

    A shallow embedding of [src/auto24_api/auto24_api.py].  Python [str]
    values are modelled as Rocq strings (the UTF-8 bytes of the text);
    the interpreter's environment (network, file system, random numbers,
    clock) is an explicit [World] that every method threads through. *)

From Stdlib Require Import ZArith QArith Lqa Lia Bool List Ascii String.
From stdpp Require Import base option gmap strings.

Open Scope string_scope.
Open Scope Z_scope.

(** ** Python's [str.replace] *)

Module PyStr.

(** [interleave new s]: what [s.replace("", new)] leaves after each
    character of [s]. *)
Fixpoint interleave (new s : string) : string :=
  match s with
  | EmptyString => EmptyString
  | String c s' => String c (new +:+ interleave new s')
  end.

(** Left-to-right scan of [str.replace]: [skip] counts the characters of a
    match that has just been replaced and still has to be dropped. *)
Fixpoint replace_from (old new : string) (skip : nat) (s : string) : string :=
  match s with
  | EmptyString => EmptyString
  | String c s' =>
      match skip with
      | S k => replace_from old new k s'
      | O =>
          if String.prefix old s
          then new +:+ replace_from old new (Nat.pred (String.length old)) s'
          else String c (replace_from old new O s')
      end
  end.

(** [s.replace(old, new)]: every non-overlapping occurrence, leftmost
    first. *)
Definition replace (old new s : string) : string :=
  match old with
  | EmptyString => new +:+ interleave new s
  | String _ _ => replace_from old new O s
  end.

(** [old in s] *)
Fixpoint occurs (old s : string) : bool :=
  String.prefix old s ||
  match s with
  | EmptyString => false
  | String _ s' => occurs old s'
  end.

(** Drops the first [n] characters. *)
Fixpoint drop (n : nat) (s : string) : string :=
  match n, s with
  | O, _ => s
  | S _, EmptyString => EmptyString
  | S k, String _ s' => drop k s'
  end.

(** [sep.join(parts)] *)
Fixpoint join (sep : string) (parts : list string) : string :=
  match parts with
  | [] => EmptyString
  | s :: rest =>
      match rest with
      | [] => s
      | _ :: _ => s +:+ sep +:+ join sep rest
      end
  end.

(** Left-to-right scan of [str.split]: the parts between the occurrences
    of [sep], leftmost first; [skip] as in [replace_from]. *)
Fixpoint split_from (sep : string) (skip : nat) (s : string) : list string :=
  match s with
  | EmptyString => [EmptyString]
  | String c s' =>
      match skip with
      | S k => split_from sep k s'
      | O =>
          if String.prefix sep s
          then EmptyString :: split_from sep (Nat.pred (String.length sep)) s'
          else match split_from sep O s' with
               | p :: ps => String c p :: ps
               | [] => [String c EmptyString]
               end
      end
  end.

(** [s.split(sep)]: [None] stands for the [ValueError] of an empty
    separator. *)
Definition split (sep s : string) : option (list string) :=
  match sep with
  | EmptyString => None
  | String _ _ => Some (split_from sep O s)
  end.

(** [c in s] for a character [c]. *)
Fixpoint char_in (c : ascii) (s : string) : bool :=
  match s with
  | EmptyString => false
  | String a s' => Ascii.eqb c a || char_in c s'
  end.

(** An occurrence of [old] in [s +:+ t] starts within [s]. *)
Fixpoint starts_in (old s t : string) : bool :=
  match s with
  | EmptyString => false
  | String _ s' => String.prefix old (s +:+ t) || starts_in old s' t
  end.

(** Writes a text that uses ['] for the double quote: every ['] becomes
    the character 34. *)
Fixpoint dq (s : string) : string :=
  match s with
  | EmptyString => EmptyString
  | String c s' =>
      String (if Ascii.eqb c "'"%char then "034"%char else c) (dq s')
  end.

End PyStr.

(** ** [_parsejs_to_json] *)

Definition _parsejs_to_json (js : string) : string :=
  let js := PyStr.replace "window.INITIAL_STATE = " "" js in
  let js := PyStr.replace "undefined" "null" js in
  let js := PyStr.replace "};" "}" js in
  js.

(** ** Python's [json.loads]

    The decoder of the standard library ([json.decoder], [json.scanner])
    on UTF-8 text: the grammar it accepts, with its extensions ([NaN],
    [Infinity], [-Infinity]) and its strict mode for control characters.
    An integer literal is decoded to its value; a literal with a fraction
    or an exponent is kept as its lexeme.  Two limits of the interpreter
    are not modelled, and [loads] describes the decoder on the texts within
    them: the recursion limit ([RecursionError] on deep nesting) and the
    limit on the digits of an integer literal ([ValueError] above 4300
    digits). *)

Module Json.

#[warnings="-register-all"]
Inductive value : Type :=
| JNull
| JBool (b : bool)
| JInt (n : Z)
| JFloat (lexeme : string)
| JStr (s : string)
| JArr (items : list value)
| JObj (members : list (string * value)).

(** A [dict] keeps insertion order; assigning an existing key keeps the
    key's place. *)
Fixpoint dict_set (k : string) (v : value) (d : list (string * value))
  : list (string * value) :=
  match d with
  | [] => [(k, v)]
  | (k', v') :: d' =>
      if String.eqb k k' then (k, v) :: d' else (k', v') :: dict_set k v d'
  end.

Definition dict_of_pairs (ps : list (string * value)) : list (string * value) :=
  fold_left (fun d kv => dict_set (fst kv) (snd kv) d) ps [].

Fixpoint dict_get (k : string) (d : list (string * value)) : option value :=
  match d with
  | [] => None
  | (k', v) :: d' => if String.eqb k k' then Some v else dict_get k d'
  end.

(** Result of a scanner: the value read and the text after it, a syntax
    error, or a recursion budget that was too small. *)
Inductive scan (A : Type) : Type :=
| Scanned (a : A) (rest : string)
| Invalid
| Exhausted.
Arguments Scanned {A} a rest.
Arguments Invalid {A}.
Arguments Exhausted {A}.

Definition code (c : ascii) : N := N_of_ascii c.

Definition is_ws (c : ascii) : bool :=
  let n := code c in
  ((n =? 32) || (n =? 9) || (n =? 10) || (n =? 13))%N.

Definition is_digit (c : ascii) : bool :=
  let n := code c in ((48 <=? n) && (n <=? 57))%N.

Fixpoint skip_ws (s : string) : string :=
  match s with
  | EmptyString => EmptyString
  | String c s' => if is_ws c then skip_ws s' else s
  end.

(** The longest run of digits at the start of [s], and what follows. *)
Fixpoint span_digits (s : string) : string * string :=
  match s with
  | EmptyString => (EmptyString, EmptyString)
  | String c s' =>
      if is_digit c
      then let '(ds, r) := span_digits s' in (String c ds, r)
      else (EmptyString, s)
  end.

Fixpoint digits_value (acc : Z) (ds : string) : Z :=
  match ds with
  | EmptyString => acc
  | String c ds' => digits_value (10 * acc + Z.of_N (code c - 48)) ds'
  end.

(** The optional fraction: a dot and at least one digit. *)
Definition scan_frac (s : string) : string * string :=
  match s with
  | String c s' =>
      if Ascii.eqb c "."%char then
        match span_digits s' with
        | (EmptyString, _) => (EmptyString, s)
        | (ds, r) => (String c ds, r)
        end
      else (EmptyString, s)
  | EmptyString => (EmptyString, s)
  end.

(** The optional exponent: [e] or [E], an optional sign, at least one
    digit. *)
Definition scan_exp (s : string) : string * string :=
  match s with
  | String e s' =>
      if Ascii.eqb e "e"%char || Ascii.eqb e "E"%char then
        let '(sign, s'') :=
          match s' with
          | String g t =>
              if Ascii.eqb g "-"%char || Ascii.eqb g "+"%char
              then (String g EmptyString, t) else (EmptyString, s')
          | EmptyString => (EmptyString, s')
          end in
        match span_digits s'' with
        | (EmptyString, _) => (EmptyString, s)
        | (ds, r) => (String e (sign +:+ ds), r)
        end
      else (EmptyString, s)
  | EmptyString => (EmptyString, s)
  end.

(** The integer part: an optional minus sign, then a lone zero or a
    non-zero digit with its run of digits. *)
Definition scan_int (s : string) : option (bool * string * string) :=
  let '(neg, s1) :=
    match s with
    | String c s' => if Ascii.eqb c "-"%char then (true, s') else (false, s)
    | EmptyString => (false, s)
    end in
  match s1 with
  | EmptyString => None
  | String c s2 =>
      if is_digit c then
        if Ascii.eqb c "0"%char then Some (neg, String c EmptyString, s2)
        else let '(ds, r) := span_digits s2 in Some (neg, String c ds, r)
      else None
  end.

(** [int(integer)] when the literal has neither fraction nor exponent,
    else the literal itself. *)
Definition number_value (neg : bool) (int_digits frac exp : string) : value :=
  match frac, exp with
  | EmptyString, EmptyString =>
      let n := digits_value 0 int_digits in
      JInt (if neg then - n else n)
  | _, _ => JFloat ((if neg then "-" else "") +:+ int_digits +:+ frac +:+ exp)
  end.

(** [NUMBER_RE] matched at the start of [s]: the integer part, then the
    optional fraction and the optional exponent. *)
Definition scan_number (s : string) : option (value * string) :=
  match scan_int s with
  | None => None
  | Some (neg, int_digits, r1) =>
      let '(frac, r2) := scan_frac r1 in
      let '(exp, r3) := scan_exp r2 in
      Some (number_value neg int_digits frac exp, r3)
  end.

Definition hex_value (c : ascii) : option N :=
  let n := code c in
  if ((48 <=? n) && (n <=? 57))%N then Some (n - 48)%N
  else if ((97 <=? n) && (n <=? 102))%N then Some (n - 87)%N
  else if ((65 <=? n) && (n <=? 70))%N then Some (n - 55)%N
  else None.

Definition hex4 (a b c d : ascii) : option N :=
  match hex_value a, hex_value b, hex_value c, hex_value d with
  | Some x, Some y, Some z, Some w => Some (((x * 16 + y) * 16 + z) * 16 + w)%N
  | _, _, _, _ => None
  end.

Definition byte (n : N) : string := String (ascii_of_N n) EmptyString.

(** The UTF-8 bytes of a code point (a lone surrogate keeps its three
    bytes). *)
Definition utf8 (cp : N) : string :=
  (if cp <? 128 then byte cp
   else if cp <? 2048 then byte (192 + cp / 64) +:+ byte (128 + cp mod 64)
   else if cp <? 65536 then
     byte (224 + cp / 4096) +:+ byte (128 + (cp / 64) mod 64)
       +:+ byte (128 + cp mod 64)
   else
     byte (240 + cp / 262144) +:+ byte (128 + (cp / 4096) mod 64)
       +:+ byte (128 + (cp / 64) mod 64) +:+ byte (128 + cp mod 64))%N.

Definition is_high (u : N) : bool := ((55296 <=? u) && (u <=? 56319))%N.
Definition is_low (u : N) : bool := ((56320 <=? u) && (u <=? 57343))%N.

(** [BACKSLASH]: the one-letter escapes. *)
Definition unescape (e : ascii) : option ascii :=
  let n := code e in
  (if n =? 34 then Some e
   else if n =? 92 then Some e
   else if n =? 47 then Some e
   else if n =? 98 then Some (ascii_of_N 8)
   else if n =? 102 then Some (ascii_of_N 12)
   else if n =? 110 then Some (ascii_of_N 10)
   else if n =? 114 then Some (ascii_of_N 13)
   else if n =? 116 then Some (ascii_of_N 9)
   else None)%N.

Definition flush (hi : option N) : string :=
  match hi with Some h => utf8 h | None => EmptyString end.

Definition emit (pre : string) (r : option (string * string))
  : option (string * string) :=
  match r with
  | Some (str, rest) => Some (pre +:+ str, rest)
  | None => None
  end.

(** [scanstring] after the opening quote, in strict mode.  [hi] is a high
    surrogate read from a [\u] escape that waits for its low half. *)
Fixpoint scan_string (hi : option N) (s : string) : option (string * string) :=
  match s with
  | EmptyString => None
  | String c s' =>
      if (code c =? 34)%N then Some (flush hi, s')
      else if (code c =? 92)%N then
        match s' with
        | EmptyString => None
        | String e s'' =>
            if (code e =? 117)%N then
              match s'' with
              | String a (String b (String x (String d t))) =>
                  match hex4 a b x d with
                  | None => None
                  | Some uni =>
                      match hi with
                      | Some h =>
                          if is_low uni then
                            emit (utf8 (65536 + ((h - 55296) * 1024 + (uni - 56320)))%N)
                                 (scan_string None t)
                          else if is_high uni then
                            emit (utf8 h) (scan_string (Some uni) t)
                          else emit (utf8 h +:+ utf8 uni) (scan_string None t)
                      | None =>
                          if is_high uni then scan_string (Some uni) t
                          else emit (utf8 uni) (scan_string None t)
                      end
                  end
              | _ => None
              end
            else
              match unescape e with
              | Some ch => emit (flush hi +:+ String ch EmptyString) (scan_string None s'')
              | None => None
              end
        end
      else if (code c <? 32)%N then None
      else emit (flush hi +:+ String c EmptyString) (scan_string None s')
  end.

(** A scanner that reads something leaves a shorter text. *)
Definition shrinks {A : Type} (f : string -> scan A) : Prop :=
  forall s a r, f s = Scanned a r -> (String.length r < String.length s)%nat.

Definition scan_map {A B : Type} (f : A -> B) (r : scan A) : scan B :=
  match r with
  | Scanned a rest => Scanned (f a) rest
  | Invalid => Invalid
  | Exhausted => Exhausted
  end.

(** [scan_once]: one value at the start of [s].  [members] and
    [elements] read what follows the opening brace or bracket. *)
Definition scan_once (members : string -> scan (list (string * value)))
    (elements : string -> scan (list value)) (s : string) : scan value :=
  match s with
  | EmptyString => Invalid
  | String c s' =>
      if (code c =? 34)%N then
        match scan_string None s' with
        | Some (str, r) => Scanned (JStr str) r
        | None => Invalid
        end
      else if (code c =? 123)%N then
        match skip_ws s' with
        | EmptyString => Invalid
        | String c1 r1 as s1 =>
            if (code c1 =? 125)%N then Scanned (JObj []) r1
            else scan_map (fun ps => JObj (dict_of_pairs ps)) (members s1)
        end
      else if (code c =? 91)%N then
        match skip_ws s' with
        | EmptyString => Invalid
        | String c1 r1 as s1 =>
            if (code c1 =? 93)%N then Scanned (JArr []) r1
            else scan_map JArr (elements s1)
        end
      else if String.prefix "null" s then Scanned JNull (PyStr.drop 4 s)
      else if String.prefix "true" s then Scanned (JBool true) (PyStr.drop 4 s)
      else if String.prefix "false" s then Scanned (JBool false) (PyStr.drop 5 s)
      else
        match scan_number s with
        | Some (v, r) => Scanned v r
        | None =>
            if String.prefix "NaN" s then Scanned (JFloat "NaN") (PyStr.drop 3 s)
            else if String.prefix "Infinity" s
            then Scanned (JFloat "Infinity") (PyStr.drop 8 s)
            else if String.prefix "-Infinity" s
            then Scanned (JFloat "-Infinity") (PyStr.drop 9 s)
            else Invalid
        end
  end.

(** The loop of [JSONArray]: a value, then the closing bracket or a comma
    and the other values. *)
Definition array_items (value_at : string -> scan value)
    (elements : string -> scan (list value)) (s : string) : scan (list value) :=
  match value_at s with
  | Scanned v r =>
      match skip_ws r with
      | EmptyString => Invalid
      | String c r' =>
          if (code c =? 93)%N then Scanned [v] r'
          else if (code c =? 44)%N then scan_map (cons v) (elements (skip_ws r'))
          else Invalid
      end
  | Invalid => Invalid
  | Exhausted => Exhausted
  end.

(** The loop of [JSONObject]: a key in double quotes, a colon, a value,
    then the closing brace or a comma and the other pairs. *)
Definition object_pairs (value_at : string -> scan value)
    (members : string -> scan (list (string * value))) (s : string)
  : scan (list (string * value)) :=
  match s with
  | EmptyString => Invalid
  | String q s' =>
      if (code q =? 34)%N then
        match scan_string None s' with
        | None => Invalid
        | Some (k, r) =>
            match skip_ws r with
            | EmptyString => Invalid
            | String c r1 =>
                if (code c =? 58)%N then
                  match value_at (skip_ws r1) with
                  | Scanned v r2 =>
                      match skip_ws r2 with
                      | EmptyString => Invalid
                      | String c2 r3 =>
                          if (code c2 =? 125)%N then Scanned [(k, v)] r3
                          else if (code c2 =? 44)%N
                          then scan_map (cons (k, v)) (members (skip_ws r3))
                          else Invalid
                      end
                  | Invalid => Invalid
                  | Exhausted => Exhausted
                  end
                else Invalid
            end
        end
      else Invalid
  end.

(** The three scanners call each other; [fuel] bounds the depth of the
    calls. *)
Fixpoint parse_value (fuel : nat) (s : string) : scan value :=
  match fuel with
  | O => Exhausted
  | S f => scan_once (parse_members f) (parse_elements f) s
  end
with parse_elements (fuel : nat) (s : string) : scan (list value) :=
  match fuel with
  | O => Exhausted
  | S f => array_items (parse_value f) (parse_elements f) s
  end
with parse_members (fuel : nat) (s : string) : scan (list (string * value)) :=
  match fuel with
  | O => Exhausted
  | S f => object_pairs (parse_value f) (parse_members f) s
  end.

(** [json.loads(s)]: [None] stands for [JSONDecodeError].  The budget is
    never exhausted ([parse_value_fuel] below). *)
Definition loads (s : string) : option value :=
  let s0 := skip_ws s in
  match parse_value (2 * String.length s0 + 1) s0 with
  | Scanned v r =>
      match skip_ws r with
      | EmptyString => Some v
      | String _ _ => None
      end
  | Invalid => None
  | Exhausted => None
  end.

End Json.

(** ** BeautifulSoup documents *)

Module Soup.

#[warnings="-register-all"]
Inductive node : Type :=
| Tag (name : string) (attrs : gmap string string) (children : list node)
| NavigableString (s : string).

(** Induction on a document node, with the property known for the
    children of a tag. *)
Fixpoint node_induction (P : node -> Prop)
    (Hstr : forall s, P (NavigableString s))
    (Htag : forall name attrs cs, Forall P cs -> P (Tag name attrs cs))
    (n : node) : P n :=
  match n with
  | NavigableString s => Hstr s
  | Tag name attrs cs =>
      Htag name attrs cs
        ((fix all (l : list node) : Forall P l :=
            match l with
            | [] => @List.Forall_nil _ P
            | c :: l' => @List.Forall_cons _ P c l' (node_induction P Hstr Htag c) (all l')
            end) cs)
  end.

(** [tag.string]: the text of a tag whose only child is a string, or
    whose only child is a tag that has one. *)
Fixpoint string_of (n : node) : option string :=
  match n with
  | NavigableString s => Some s
  | Tag _ _ [c] => string_of c
  | Tag _ _ _ => None
  end.

(** [tag.text]: the strings below the tag, concatenated in document
    order. *)
Fixpoint text (n : node) : string :=
  match n with
  | NavigableString s => s
  | Tag _ _ cs =>
      (fix cat (l : list node) : string :=
         match l with
         | [] => EmptyString
         | c :: l' => text c +:+ cat l'
         end) cs
  end.

(** The first node, in document order, at or below [n] that satisfies
    [p]. *)
Fixpoint first_at (p : node -> bool) (n : node) : option node :=
  if p n then Some n
  else
    match n with
    | NavigableString _ => None
    | Tag _ _ cs =>
        (fix first (l : list node) : option node :=
           match l with
           | [] => None
           | c :: l' =>
               match first_at p c with
               | Some r => Some r
               | None => first l'
               end
           end) cs
    end.

Fixpoint first_in (p : node -> bool) (doc : list node) : option node :=
  match doc with
  | [] => None
  | c :: doc' =>
      match first_at p c with
      | Some r => Some r
      | None => first_in p doc'
      end
  end.

(** The filter of [find(name, attrs={key: val})]. *)
Definition has_attr (name key val : string) (n : node) : bool :=
  match n with
  | Tag nm attrs _ => String.eqb nm name && bool_decide (attrs !! key = Some val)
  | NavigableString _ => false
  end.

(** The filter of [find(name, string=str)]. *)
Definition has_string (name str : string) (n : node) : bool :=
  match n with
  | Tag nm _ _ => String.eqb nm name && bool_decide (string_of n = Some str)
  | NavigableString _ => false
  end.

(** [soup.find(name, attrs={key: val})] *)
Definition find_attrs (doc : list node) (name key val : string) : option node :=
  first_in (has_attr name key val) doc.

(** [soup.find(name, string=str)] *)
Definition find_string (doc : list node) (name str : string) : option node :=
  first_in (has_string name str) doc.

End Soup.

(** ** The interpreter's environment *)

Inductive Exn : Type :=
| InvalidArgsException (msg : string)
| ReCaptchaRequiredException
| DataNotFoundException
| JSONDecodeError
| KeyError (key : string)
| TypeError
| AttributeError (name : string)
| ValueError
| UnpicklingError
| OverflowError
| EOFError.

(** How a call ends.  [OutOfFuel] belongs to the model only: a loop that
    was given too few iterations. *)
Inductive Outcome (A : Type) : Type :=
| Return (a : A)
| Raise (e : Exn)
| OutOfFuel.
Arguments Return {A} a.
Arguments Raise {A} e.
Arguments OutOfFuel {A}.

(** [requests.Session]: the cookies it carries from one request to the
    next. *)
Record Session : Type := { jar : gmap string string }.

(** [requests.Response] *)
Record Response : Type := {
  content : string;
  text : string;
  cookies : gmap string string
}.

Record Request : Type := {
  url : string;
  req_headers : gmap string string;
  req_proxies : option (gmap string string);
  req_cookies : gmap string string
}.

Inductive FileData : Type :=
| Pickled (s : Session)
| Text (s : string).

(** What the program does to the world, in the order it does it. *)
Inductive Event : Type :=
| Printed (line : string)
| HttpGet (r : Request)
| MadeDirs (path : string)
| Wrote (path : string) (data : FileData)
| GeneratedHeaders (h : gmap string string)
| Slept (seconds : Q).

(** The world outside the interpreter.  [server n r] is the site's answer
    to the request [r] when [n] requests came before it; [fake_headers n]
    is the [n]-th dictionary of [fake_headers]; [random_random n] is the
    [n]-th value of [random.random()].  Failures of the operating system
    and of the network are not modelled. *)
Record World : Type := {
  files : gmap string FileData;
  dirs : gset string;
  events : list Event;
  requests : nat;
  draws : nat;
  randoms : nat;
  server : nat -> Request -> Response;
  fake_headers : nat -> gmap string string;
  random_random : nat -> Q
}.

Definition log (e : Event) (w : World) : World :=
  {| files := files w; dirs := dirs w; events := events w ++ [e];
     requests := requests w; draws := draws w; randoms := randoms w;
     server := server w; fake_headers := fake_headers w;
     random_random := random_random w |}.

Definition write_file (path : string) (d : FileData) (w : World) : World :=
  log (Wrote path d)
    {| files := <[path := d]> (files w); dirs := dirs w; events := events w;
       requests := requests w; draws := draws w; randoms := randoms w;
       server := server w; fake_headers := fake_headers w;
       random_random := random_random w |}.

Definition make_dirs (paths : list string) (path : string) (w : World) : World :=
  log (MadeDirs path)
    {| files := files w; dirs := list_to_set paths ∪ dirs w; events := events w;
       requests := requests w; draws := draws w; randoms := randoms w;
       server := server w; fake_headers := fake_headers w;
       random_random := random_random w |}.

Definition count_request (w : World) : World :=
  {| files := files w; dirs := dirs w; events := events w;
     requests := S (requests w); draws := draws w; randoms := randoms w;
     server := server w; fake_headers := fake_headers w;
     random_random := random_random w |}.

Definition count_draw (w : World) : World :=
  {| files := files w; dirs := dirs w; events := events w;
     requests := requests w; draws := S (draws w); randoms := randoms w;
     server := server w; fake_headers := fake_headers w;
     random_random := random_random w |}.

Definition count_random (w : World) : World :=
  {| files := files w; dirs := dirs w; events := events w;
     requests := requests w; draws := draws w; randoms := S (randoms w);
     server := server w; fake_headers := fake_headers w;
     random_random := random_random w |}.

(** [os.path.join] on POSIX. *)
Definition ends_with_sep (a : string) : bool :=
  match String.get (Nat.pred (String.length a)) a with
  | Some c => Ascii.eqb c "/"%char
  | None => false
  end.

Definition path_join (a b : string) : string :=
  if String.prefix "/" b then b
  else if String.eqb a "" || ends_with_sep a then a +:+ b
  else a +:+ "/" +:+ b.

(** Code of the repository and of its libraries that is not part of the
    class: the query encoder ([QueryEncoderFactory(config).data], taken
    to give a query string for every query), the HTML parser
    ([BeautifulSoup(content, "html.parser")]) and the constructor of
    [requests.Session] as the class calls it, with the keyword arguments
    [headers] and [proxies]: [None] when the installed version of the
    library does not take them, which is a [TypeError]. *)
Class Externals : Type := {
  Query : Type;
  QueryEncoderFactory_data : Query -> string;
  BeautifulSoup : string -> list Soup.node;
  requests_Session :
    gmap string string -> option (gmap string string) -> option Session
}.

(** ** The class [Auto24API] *)

(** The attributes [__init__] assigns. *)
Record Auto24API : Type := {
  _use_session : bool;
  _bypass_captcha : bool;
  _headers : gmap string string;
  _proxies : option (gmap string string);
  _lang : string;
  _wait_range : list Q;
  _max_retries : Z;
  _tmp_dir : string;
  _session : Session
}.

(** Modelled from the spec: the class [Auto24APISearchResponse] of
    [auto24_api.responses], which is not among the sources.  It holds the
    raw parsed JSON document, a stats sub-object and the search-result
    records, as the keyword arguments of its constructor name them. *)
Record Auto24APISearchResponse : Type := {
  raw : Json.value;
  stats : Json.value;
  search_results : Json.value
}.

(** A method body: it reads and updates the object and the world, and
    returns or raises. *)
Definition M (A : Type) : Type :=
  Auto24API -> World -> Outcome A * Auto24API * World.

Definition ret {A : Type} (a : A) : M A := fun self w => (Return a, self, w).

Definition raise {A : Type} (e : Exn) : M A := fun self w => (Raise e, self, w).

Definition out_of_fuel {A : Type} : M A := fun self w => (OutOfFuel, self, w).

Definition bind {A B : Type} (m : M A) (k : A -> M B) : M B :=
  fun self w =>
    match m self w with
    | (Return a, self', w') => k a self' w'
    | (Raise e, self', w') => (Raise e, self', w')
    | (OutOfFuel, self', w') => (OutOfFuel, self', w')
    end.

Notation "'do' x <- m ;;; k" := (bind m (fun x => k))
  (at level 10, x name, m at level 100, k at level 200).
Notation "'exec' m ;;; k" := (bind m (fun _ => k))
  (at level 10, m at level 100, k at level 200).

Definition get_self : M Auto24API := fun self w => (Return self, self, w).

Definition get_world : M World := fun self w => (Return w, self, w).

Definition effect (f : World -> World) : M unit :=
  fun self w => (Return tt, self, f w).

Definition lift {A : Type} (o : Outcome A) : M A := fun self w => (o, self, w).

Definition with_headers (h : gmap string string) (self : Auto24API) : Auto24API :=
  {| _use_session := _use_session self; _bypass_captcha := _bypass_captcha self;
     _headers := h; _proxies := _proxies self; _lang := _lang self;
     _wait_range := _wait_range self; _max_retries := _max_retries self;
     _tmp_dir := _tmp_dir self; _session := _session self |}.

Definition with_session (s : Session) (self : Auto24API) : Auto24API :=
  {| _use_session := _use_session self; _bypass_captcha := _bypass_captcha self;
     _headers := _headers self; _proxies := _proxies self; _lang := _lang self;
     _wait_range := _wait_range self; _max_retries := _max_retries self;
     _tmp_dir := _tmp_dir self; _session := s |}.

(** [self._headers = h] *)
Definition set_headers (h : gmap string string) : M unit :=
  fun self w => (Return tt, with_headers h self, w).

(** The session object is shared: what a request does to it is seen
    through [self._session]. *)
Definition set_session (s : Session) : M unit :=
  fun self w => (Return tt, with_session s self, w).

(** [Headers(os="mac", browser="chrome", headers=True).generate()] *)
Definition generate_headers (w : World) : gmap string string * World :=
  let h := fake_headers w (draws w) in
  (h, log (GeneratedHeaders h) (count_draw w)).

Definition _get_headers : M (gmap string string) :=
  fun self w => let '(h, w') := generate_headers w in (Return h, self, w').

Definition LANG_MAP : list (string * string) :=
  [("fr", "fr/voitures"); ("de", "de/autos"); ("it", "it/automobili")].

Fixpoint assoc (k : string) (l : list (string * string)) : option string :=
  match l with
  | [] => None
  | (k', v) :: l' => if String.eqb k k' then Some v else assoc k l'
  end.

Definition list_url (lang : string) : Outcome string :=
  match assoc lang LANG_MAP with
  | Some part => Return ("https://www.autoscout24.ch/" +:+ part +:+ "/s")
  | None => Raise (KeyError lang)
  end.

Definition _LIST_URL : M string := do self <- get_self ;;; lift (list_url (_lang self)).

Definition _SESSION_FILENAME : string := "session.pkl".

Definition tmp_path (tmp_dir : string) : string :=
  path_join (path_join tmp_dir ".auto24api") "tmp".

Definition session_file_path (tmp_dir : string) : string :=
  path_join (tmp_path tmp_dir) _SESSION_FILENAME.

Definition _tmp_path : M string := do self <- get_self ;;; ret (tmp_path (_tmp_dir self)).

Definition _session_file_path : M string :=
  do self <- get_self ;;; ret (session_file_path (_tmp_dir self)).

(** [pickle.load] of a file: the session a pickle holds; [EOFError] on an
    empty file; [UnpicklingError] on other text. *)
Definition pickle_load (d : FileData) : Outcome Session :=
  match d with
  | Pickled s => Return s
  | Text "" => Raise EOFError
  | Text _ => Raise UnpicklingError
  end.

Section Methods.
Context `{Externals}.

(** [_load_session], from the attributes [__init__] has assigned when it
    calls it. *)
Definition load_session (use_session : bool) (headers : gmap string string)
    (proxies : option (gmap string string)) (tmp_dir : string) (w : World)
  : Outcome Session :=
  match (if use_session then files w !! session_file_path tmp_dir else None) with
  | Some d => pickle_load d
  | None =>
      match requests_Session headers proxies with
      | Some s => Return s
      | None => Raise TypeError
      end
  end.

Definition _load_session : M Session :=
  do self <- get_self ;;;
  do w <- get_world ;;;
  lift (load_session (_use_session self) (_headers self) (_proxies self)
          (_tmp_dir self) w).

Definition _save_session : M unit :=
  do self <- get_self ;;;
  do w <- get_world ;;;
  let dir := tmp_path (_tmp_dir self) in
  exec (if bool_decide (dir ∈ dirs w) then ret tt
        else effect (make_dirs [path_join (_tmp_dir self) ".auto24api"; dir] dir)) ;;;
  effect (write_file (session_file_path (_tmp_dir self)) (Pickled (_session self))).

(** The request [self._session.get(url, headers=..., proxies=...)]
    sends. *)
Definition request_of (self : Auto24API) (base_url query_params : string) : Request :=
  {| url := base_url +:+ "?" +:+ query_params;
     req_headers := _headers self;
     req_proxies := _proxies self;
     req_cookies := jar (_session self) |}.

(** [self._session.get]: the site answers, the session keeps the cookies
    of the answer. *)
Definition session_get (r : Request) : M Response :=
  do w <- get_world ;;;
  do self <- get_self ;;;
  let res := server w (requests w) r in
  exec effect (fun w => count_request (log (HttpGet r) w)) ;;;
  exec set_session {| jar := cookies res ∪ jar (_session self) |} ;;;
  ret res.

Definition _get (base_url query_params : string) : M Response :=
  exec effect (log (Printed (base_url +:+ "?" +:+ query_params))) ;;;
  do self <- get_self ;;;
  do res <- session_get (request_of self base_url query_params) ;;;
  exec (if _use_session self then _save_session else ret tt) ;;;
  ret res.

(** [random.uniform(a, b)] is [a + (b - a) * random()], here over the
    rationals: the rounding of [float], its infinities and NaN are not
    modelled.  [random.uniform( *args )] needs two arguments. *)
Definition random_uniform (args : list Q) : M Q :=
  match args with
  | [a; b] =>
      do w <- get_world ;;;
      exec effect count_random ;;;
      ret (a + (b - a) * random_random w (randoms w))%Q
  | _ => raise TypeError
  end.

(** The durations [time.sleep] can convert: it counts nanoseconds in a
    signed 64-bit integer, rounding away from zero. *)
Definition sleep_min : Q := - (9223372036854775808 # 1000000000).
Definition sleep_max : Q := 9223372036854775807 # 1000000000.

(** [time.sleep]: the duration is converted first ([OverflowError] when it
    does not fit), then refused when negative ([ValueError]).  A NaN,
    which [time.sleep] refuses with [ValueError], is no rational. *)
Definition time_sleep (seconds : Q) : M unit :=
  if Qle_bool sleep_min seconds && Qle_bool seconds sleep_max then
    if Qle_bool 0 seconds then effect (log (Slept seconds)) else raise ValueError
  else raise OverflowError.

(** [json.loads] as a call. *)
Definition json_loads (s : string) : M Json.value :=
  match Json.loads s with
  | Some v => ret v
  | None => raise JSONDecodeError
  end.

(** [v[k]] for a string [k]. *)
Definition getitem (v : Json.value) (k : string) : M Json.value :=
  match v with
  | Json.JObj d =>
      match Json.dict_get k d with
      | Some x => ret x
      | None => raise (KeyError k)
      end
  | _ => raise TypeError
  end.

Definition is_found (o : option Soup.node) : bool :=
  match o with Some _ => true | None => false end.

(** The [while] loop of [search_list], entered with the local [tries]. *)
Fixpoint search_list_while (fuel : nat) (config : Query) (tries : Z)
  : M Auto24APISearchResponse :=
  do self <- get_self ;;;
  if tries <? _max_retries self then
    match fuel with
    | O => out_of_fuel
    | S fuel' =>
        do base <- _LIST_URL ;;;
        do res <- _get base (QueryEncoderFactory_data config) ;;;
        let soup := BeautifulSoup (content res) in
        if is_found (Soup.find_attrs soup "div" "id" "captcha")
           || is_found (Soup.find_string soup "title" "Anti-Bot Captcha")
        then raise ReCaptchaRequiredException
        else
          match Soup.find_attrs soup "script" "id" "initial-state" with
          | None =>
              let tries := tries + 1 in
              exec effect (write_file "out.html" (Text (text res))) ;;;
              do h <- _get_headers ;;;
              exec set_headers h ;;;
              do d <- random_uniform (_wait_range self) ;;;
              exec time_sleep d ;;;
              search_list_while fuel' config tries
          | Some script_tag =>
              do data <- json_loads (_parsejs_to_json (Soup.text script_tag)) ;;;
              do search <- getitem data "search" ;;;
              do st <- getitem search "stats" ;;;
              do results <- getitem data "searchResults" ;;;
              ret {| raw := data; stats := st; search_results := results |}
          end
    end
  else raise DataNotFoundException.

Definition search_list (config : Query) : M Auto24APISearchResponse :=
  do self <- get_self ;;;
  search_list_while (Z.to_nat (_max_retries self)) config 0.

(** The string-valued attributes of an [Auto24API] object, by name: the
    properties of the class and the strings [__init__] assigns. *)
Definition getattr (name : string) : M string :=
  if String.eqb name "_LIST_URL" then _LIST_URL
  else if String.eqb name "_SESSION_FILENAME" then ret _SESSION_FILENAME
  else if String.eqb name "_tmp_path" then _tmp_path
  else if String.eqb name "_session_file_path" then _session_file_path
  else if String.eqb name "_lang" then (do self <- get_self ;;; ret (_lang self))
  else if String.eqb name "_tmp_dir" then (do self <- get_self ;;; ret (_tmp_dir self))
  else raise (AttributeError name).

Definition listing_details (config : Query) : M unit :=
  do base <- getattr "_BASE_URL" ;;;
  exec _get base (QueryEncoderFactory_data config) ;;;
  ret tt.

Definition lang_message : string :=
  "The provided 'lang' is invalid. Choose from 'fr', 'de' and 'it'.".

Definition wait_range_message : string :=
  "The provided 'wait_range' is invalid. Length must be equal to 2 and first element must be greater than the second.".

Definition supported_lang (lang : string) : bool :=
  existsb (String.eqb lang) ["fr"; "de"; "it"].

(** [len(wait_range) != 2 or wait_range[0] > wait_range[1]] *)
Definition bad_wait_range (wait_range : list Q) : bool :=
  negb (Nat.eqb (length wait_range) 2)
  || match wait_range with
     | a :: b :: _ => negb (Qle_bool a b)
     | _ => false
     end.

(** [self._get_headers() if headers is None else headers] *)
Definition initial_headers (headers : option (gmap string string)) (w : World)
  : gmap string string * World :=
  match headers with
  | None => generate_headers w
  | Some h => (h, w)
  end.

(** [Auto24API(...)]: the new object, or the exception [__init__]
    raises. *)
Definition __init__ (use_session bypass_captcha : bool)
    (headers : option (gmap string string))
    (proxies : option (gmap string string)) (wait_range : list Q)
    (max_retries : Z) (lang tmp_dir : string) (w : World)
  : Outcome Auto24API * World :=
  let '(hdrs, w) := initial_headers headers w in
  if negb (supported_lang lang) then (Raise (InvalidArgsException lang_message), w)
  else if bad_wait_range wait_range
  then (Raise (InvalidArgsException wait_range_message), w)
  else
    match load_session use_session hdrs proxies tmp_dir w with
    | Return s =>
        (Return {| _use_session := use_session; _bypass_captcha := bypass_captcha;
                   _headers := hdrs; _proxies := proxies; _lang := lang;
                   _wait_range := wait_range; _max_retries := max_retries;
                   _tmp_dir := tmp_dir; _session := s |}, w)
    | Raise e => (Raise e, w)
    | OutOfFuel => (OutOfFuel, w)
    end.

End Methods.

(** ** Vocabulary of the properties *)

Module Page.

(** [n] is [m] or lies below it. *)
Inductive below (n : Soup.node) : Soup.node -> Prop :=
| below_here : below n n
| below_child name attrs cs c :
    In c cs -> below n c -> below n (Soup.Tag name attrs cs).

(** [n] is a node of the document. *)
Definition within (n : Soup.node) (doc : list Soup.node) : Prop :=
  exists c, In c doc /\ below n c.

(** A [div] whose [id] is [captcha], or a [title] whose string is
    [Anti-Bot Captcha]. *)
Definition captcha_marker (n : Soup.node) : Prop :=
  match n with
  | Soup.Tag name attrs _ =>
      (name = "div" /\ attrs !! "id" = Some "captcha")
      \/ (name = "title" /\ Soup.string_of n = Some "Anti-Bot Captcha")
  | Soup.NavigableString _ => False
  end.


Definition has_captcha (doc : list Soup.node) : Prop :=
  exists n, within n doc /\ captcha_marker n.


End Page.

Section Behaviour.
Context `{Externals}.

(** The session once the answer [res] has come in. *)
Definition session_after (self : Auto24API) (res : Response) : Session :=
  {| jar := cookies res ∪ jar (_session self) |}.

(** What [_save_session] does to the world. *)
Definition save_events (self : Auto24API) (w : World) : list Event :=
  let dir := tmp_path (_tmp_dir self) in
  (if bool_decide (dir ∈ dirs w) then [] else [MadeDirs dir])
  ++ [Wrote (session_file_path (_tmp_dir self)) (Pickled (_session self))].

(** What one call of [_get] does to the world: the line printed, the
    request, and the session file when sessions are in use. *)
Definition get_events (self : Auto24API) (w : World) (r : Request) : list Event :=
  [Printed (url r); HttpGet r]
  ++ (if _use_session self
      then save_events (with_session (session_after self (server w (requests w) r)) self) w
      else []).

(** The world after one call of [_get] that sends [r]. *)
Definition world_after_get (self : Auto24API) (w : World) (r : Request) : World :=
  let w1 := count_request (log (HttpGet r) (log (Printed (url r)) w)) in
  if _use_session self then
    let dir := tmp_path (_tmp_dir self) in
    write_file (session_file_path (_tmp_dir self))
      (Pickled (session_after self (server w (requests w) r)))
      (if bool_decide (dir ∈ dirs w) then w1
       else make_dirs [path_join (_tmp_dir self) ".auto24api"; dir] dir w1)
  else w1.




(** Every request of the trace is followed by the write of the session
    file [path], with at most the creation of its directory between the
    two. *)
Fixpoint saved_after_get (path : string) (evs : list Event) : Prop :=
  match evs with
  | [] => True
  | HttpGet _ :: rest =>
      match rest with
      | Wrote p (Pickled _) :: _ => p = path
      | MadeDirs _ :: Wrote p (Pickled _) :: _ => p = path
      | _ => False
      end /\ saved_after_get path rest
  | _ :: rest => saved_after_get path rest
  end.

End Behaviour.

(** ** Fixtures *)

Module Fixture.

Definition captcha_page : list Soup.node :=
  [Soup.Tag "html" ∅
     [Soup.Tag "body" ∅ [Soup.Tag "div" {["id" := "captcha"]} []]]].

Definition bare_page : list Soup.node :=
  [Soup.Tag "html" ∅ [Soup.Tag "body" ∅ [Soup.NavigableString "nothing here"]]].

Definition script_page (js : string) : list Soup.node :=
  [Soup.Tag "html" ∅
     [Soup.Tag "body" ∅
        [Soup.Tag "script" {["id" := "initial-state"]} [Soup.NavigableString js]]]].

Definition payload : string :=
  PyStr.dq "window.INITIAL_STATE = {'search':{'stats':{'count':5}},'searchResults':[{'id':1}]};".

Definition payload_document : Json.value :=
  Json.JObj
    [("search", Json.JObj [("stats", Json.JObj [("count", Json.JInt 5)])]);
     ("searchResults", Json.JArr [Json.JObj [("id", Json.JInt 1)]])].


(** A stand-in for the HTML parser: three pages by name, and any other
    body as the text of the payload script. *)
Definition parser (body : string) : list Soup.node :=
  if String.eqb body "captcha" then captcha_page
  else if String.eqb body "bare" then bare_page
  else script_page body.

#[local] Instance externals : Externals := {|
  Query := string;
  QueryEncoderFactory_data := fun q => q;
  BeautifulSoup := parser;
  requests_Session := fun _ _ => Some {| jar := ∅ |}
|}.

Definition answer (body : string) : Response :=
  {| content := body; text := body; cookies := {["sid" := "1"]} |}.

(** A world whose site always answers [body]. *)
Definition world (body : string) : World :=
  {| files := ∅; dirs := ∅; events := []; requests := O; draws := O; randoms := O;
     server := fun _ _ => answer body;
     fake_headers := fun n => {["User-Agent" := "agent"]};
     random_random := fun _ => (1 # 2)%Q |}.

(** The same world with a session file left by an earlier run. *)
Definition session_world (body : string) : World :=
  {| files := {["./.auto24api/tmp/session.pkl" := Pickled {| jar := ∅ |}]};
     dirs := {["./.auto24api"; "./.auto24api/tmp"]};
     events := []; requests := O; draws := O; randoms := O;
     server := fun _ _ => answer body;
     fake_headers := fun n => {["User-Agent" := "agent"]};
     random_random := fun _ => (1 # 2)%Q |}.

Definition api (use_session : bool) (max_retries : Z) : Auto24API :=
  {| _use_session := use_session; _bypass_captcha := false;
     _headers := ∅; _proxies := None; _lang := "fr";
     _wait_range := [2%Q; 5%Q]; _max_retries := max_retries;
     _tmp_dir := "."; _session := {| jar := ∅ |} |}.

(** The listing URL of the locale [fr]. *)
Definition fr_url : string := "https://www.autoscout24.ch/fr/voitures/s".

(** The script tag of [script_page payload]. *)
Definition script_tag : Soup.node :=
  Soup.Tag "script" {["id" := "initial-state"]} [Soup.NavigableString payload].



End Fixture.

(** ** Vocabulary of the runs *)

Section RunVocabulary.
Context `{Externals}.

(** The attributes [search_list] and [_get] never assign. *)
Definition same_config (self self' : Auto24API) : Prop :=
  _use_session self' = _use_session self
  /\ _bypass_captcha self' = _bypass_captcha self
  /\ _proxies self' = _proxies self
  /\ _lang self' = _lang self
  /\ _wait_range self' = _wait_range self
  /\ _max_retries self' = _max_retries self
  /\ _tmp_dir self' = _tmp_dir self.

(** [stats] and [search_results] are the entries of [raw] they are read
    from. *)
Definition from_raw (resp : Auto24APISearchResponse) : Prop :=
  exists d s,
    raw resp = Json.JObj d
    /\ Json.dict_get "search" d = Some (Json.JObj s)
    /\ Json.dict_get "stats" s = Some (stats resp)
    /\ Json.dict_get "searchResults" d = Some (search_results resp).

(** What holds of every run of the loop of [search_list] that starts with
    [tries] attempts made, from [self] and [w] to the outcome [o], the
    object [self'] and the world [w']. *)
Definition run_facts (tries : Z) (self : Auto24API) (w : World)
    (o : Outcome Auto24APISearchResponse) (self' : Auto24API) (w' : World) : Prop :=
  let left := Z.to_nat (_max_retries self - tries) in
  same_config self self'
  /\ server w' = server w
  /\ (forall p, p <> "out.html" ->
                (_use_session self = false \/ p <> session_file_path (_tmp_dir self)) ->
                files w' !! p = files w !! p)
  /\ (requests w <= requests w' <= requests w + left)%nat
  /\ (o = Raise DataNotFoundException -> requests w' = (requests w + left)%nat)
  /\ (forall resp, o = Return resp -> from_raw resp /\ (requests w < requests w')%nat)
  /\ (o = Raise ReCaptchaRequiredException ->
      exists k r sent after,
        requests w' = S k
        /\ events w' = (events w ++ sent ++ HttpGet r :: after)%list
        /\ (forall r', ~ In (HttpGet r') after)
        /\ Page.has_captcha (BeautifulSoup (content (server w k r)))).

End RunVocabulary.

Section Answers.
Context `{Externals}.


End Answers.

Module Flaky.

(** A site that answers the bare page twice and [body] from then on. *)
Definition site (body : string) (n : nat) (r : Request) : Response :=
  if (n <? 2)%nat then Fixture.answer "bare" else Fixture.answer body.

(** A world with that site. *)
Definition world (body : string) : World :=
  {| files := ∅; dirs := ∅; events := []; requests := O; draws := O; randoms := O;
     server := site body;
     fake_headers := fun n => {["User-Agent" := "agent"]};
     random_random := fun _ => (1 # 2)%Q |}.

End Flaky.

(** ** The decoder and the cleanup on examples *)

Example parsejs_ex1 :
  _parsejs_to_json (PyStr.dq "window.INITIAL_STATE = {'a':undefined};")
  = PyStr.dq "{'a':null}".
Proof. reflexivity. Qed.

Example loads_ex1 :
  Json.loads (PyStr.dq "{'search':{'stats':{'count':5}},'searchResults':[{'id':1}]}")
  = Some (Json.JObj [("search", Json.JObj [("stats", Json.JObj [("count", Json.JInt 5)])]);
                     ("searchResults", Json.JArr [Json.JObj [("id", Json.JInt 1)]])]).
Proof. vm_compute. reflexivity. Qed.

Example loads_ex2 :
  Json.loads (PyStr.dq " [1, -2.5e+3, 'a\u00e9\n', true, null, {}, [ ], {'k': 1, 'k': 2}] ")
  = Some (Json.JArr
            [Json.JInt 1; Json.JFloat "-2.5e+3";
             Json.JStr ("a" +:+ Json.byte 195 +:+ Json.byte 169 +:+ Json.byte 10);
             Json.JBool true; Json.JNull; Json.JObj []; Json.JArr [];
             Json.JObj [("k", Json.JInt 2)]]).
Proof. vm_compute. reflexivity. Qed.

Example loads_ex3 :
  map Json.loads ["[1,]"; "{'a':1}"; "01"; "1 2"; ""; "nul"; "[1"; "-"; "1.e5"]
  = [None; None; None; None; None; None; None; None; None].
Proof. vm_compute. reflexivity. Qed.

(** ** What one request does *)

Section Request.
Context `{Externals}.

Lemma get_eq (base q : string) (self : Auto24API) (w : World) :
  let r := request_of self base q in
  let res := server w (requests w) r in
  _get base q self w
  = (Return res, with_session (session_after self res) self, world_after_get self w r).
Proof.
  unfold _get, world_after_get, session_get, _save_session, bind, effect,
    get_self, get_world, set_session, ret; simpl.
  destruct (_use_session self); simpl; [|reflexivity].
  destruct (bool_decide _); reflexivity.
Qed.

Lemma events_after_get (self : Auto24API) (w : World) (r : Request) :
  events (world_after_get self w r) = (events w ++ get_events self w r)%list.
Proof.
  unfold world_after_get, get_events, save_events.
  destruct (_use_session self); simpl.
  - destruct (bool_decide _); simpl; rewrite <- ?app_assoc; reflexivity.
  - rewrite <- app_assoc. reflexivity.
Qed.

Lemma frame_after_get (self : Auto24API) (w : World) (r : Request) :
  let w' := world_after_get self w r in
  requests w' = S (requests w) /\ draws w' = draws w /\ randoms w' = randoms w
  /\ server w' = server w /\ fake_headers w' = fake_headers w
  /\ random_random w' = random_random w.
Proof.
  unfold world_after_get.
  destruct (_use_session self); simpl; [destruct (bool_decide _)|]; simpl; auto 10.
Qed.

End Request.

(** ** The decoder's budget *)

Section Budget.
Import Json.
Local Open Scope nat_scope.

Abbreviation len := String.length.

Lemma skip_ws_length (s : string) : len (skip_ws s) <= len s.
Proof.
  induction s as [|c s IH]; simpl; [lia|].
  destruct (is_ws c); simpl; lia.
Qed.

Lemma span_digits_length (s : string) : len (snd (span_digits s)) <= len s.
Proof.
  induction s as [|c s IH]; simpl; [lia|].
  destruct (is_digit c); [|simpl; lia].
  destruct (span_digits s) as [ds r]. simpl in *. lia.
Qed.

Lemma scan_frac_length (s : string) : len (snd (scan_frac s)) <= len s.
Proof.
  destruct s as [|c s]; simpl; [lia|].
  destruct (Ascii.eqb c "."); [|simpl; lia].
  pose proof (span_digits_length s) as Hs.
  destruct (span_digits s) as [[|d ds] r]; simpl in *; lia.
Qed.

Lemma scan_exp_length (s : string) : len (snd (scan_exp s)) <= len s.
Proof.
  destruct s as [|e s]; simpl; [lia|].
  destruct (_ || _); [|simpl; lia].
  destruct s as [|g t].
  - simpl. lia.
  - destruct (_ || _).
    + pose proof (span_digits_length t) as Ht.
      destruct (span_digits t) as [[|d ds] r]; simpl in *; lia.
    + pose proof (span_digits_length (String g t)) as Ht.
      destruct (span_digits (String g t)) as [[|d ds] r]; simpl in *; lia.
Qed.

Lemma scan_int_length (s : string) (neg : bool) (ds r : string) :
  scan_int s = Some (neg, ds, r) -> len r < len s.
Proof.
  unfold scan_int.
  assert (forall n s1, len s1 <= len s ->
            match s1 with
            | EmptyString => None
            | String c s2 =>
                if is_digit c then
                  if Ascii.eqb c "0"%char then Some (n, String c EmptyString, s2)
                  else let '(ds, r) := span_digits s2 in Some (n, String c ds, r)
                else None
            end = Some (neg, ds, r) -> len r < len s) as Hbody.
  { intros n [|c s2] Hlen; [discriminate|]. simpl in Hlen.
    destruct (is_digit c); [|discriminate].
    destruct (Ascii.eqb c "0").
    - intros [= _ _ <-]. lia.
    - pose proof (span_digits_length s2) as Hd.
      destruct (span_digits s2) as [ds' r']. simpl in Hd. intros [= _ _ <-]. lia. }
  destruct s as [|c s']; [discriminate|].
  destruct (Ascii.eqb c "-");
    [apply (Hbody true s')|apply (Hbody false (String c s'))]; simpl; lia.
Qed.

Lemma scan_number_length (s : string) (v : value) (r : string) :
  scan_number s = Some (v, r) -> len r < len s.
Proof.
  unfold scan_number.
  destruct (scan_int s) as [[[neg ds] r1]|] eqn:Hint; [|discriminate].
  apply scan_int_length in Hint.
  pose proof (scan_frac_length r1) as Hf.
  destruct (scan_frac r1) as [frac r2].
  pose proof (scan_exp_length r2) as He.
  destruct (scan_exp r2) as [exp r3]. simpl in *.
  intros [= _ <-]. lia.
Qed.

Lemma emit_rest (pre : string) (o : option (string * string)) (str r : string) :
  emit pre o = Some (str, r) -> exists str', o = Some (str', r).
Proof. destruct o as [[str' r']|]; simpl; [|discriminate]. intros [= _ <-]. eauto. Qed.

Lemma scan_string_length (s : string) :
  forall hi str r, scan_string hi s = Some (str, r) -> len r < len s.
Proof.
  induction s as [s IH] using (well_founded_induction
                                 (well_founded_ltof _ String.length)).
  unfold ltof in IH. intros hi str r.
  destruct s as [|c s']; [discriminate|]. simpl.
  destruct (code c =? 34)%N; [intros [= _ <-]; lia|].
  destruct (code c =? 92)%N.
  - destruct s' as [|e s'']; [discriminate|].
    destruct (code e =? 117)%N.
    + destruct s'' as [|a [|b [|x [|d t]]]]; try discriminate.
      destruct (hex4 a b x d) as [uni|]; [|discriminate].
      assert (forall hi' str', scan_string hi' t = Some (str', r) ->
                               len r < S (S (S (S (S (S (len t))))))) as Ht.
      { intros hi' str' E. apply IH in E; simpl; lia. }
      destruct hi as [h|].
      * destruct (is_low uni); [|destruct (is_high uni)];
          intros [str' E]%emit_rest; eapply Ht; exact E.
      * destruct (is_high uni); [intros E|intros [str' E]%emit_rest];
          eapply Ht; exact E.
    + destruct (unescape e); [|discriminate].
      intros [str' E]%emit_rest. apply IH in E; simpl in *; lia.
  - destruct (code c <? 32)%N; [discriminate|].
    intros [str' E]%emit_rest. apply IH in E; simpl in *; lia.
Qed.

Lemma drop_length (n : nat) (s : string) : len (PyStr.drop n s) = len s - n.
Proof.
  revert s. induction n as [|n IH]; intros [|c s]; simpl; try lia. apply IH.
Qed.

Lemma prefix_length (p s : string) : String.prefix p s = true -> len p <= len s.
Proof.
  revert s. induction p as [|a p IH]; intros [|b s]; simpl; try lia; try discriminate.
  destruct (ascii_dec a b); [|discriminate]. intros E%IH. lia.
Qed.

Lemma scan_map_rest {A B : Type} (g : A -> B) (o : scan A) (b : B) (r : string) :
  scan_map g o = Scanned b r -> exists a, o = Scanned a r.
Proof. destruct o; simpl; try discriminate. intros [= _ <-]. eauto. Qed.

Lemma scan_once_shrinks members elements :
  shrinks members -> shrinks elements -> shrinks (scan_once members elements).
Proof.
  intros Hm He s v r. unfold scan_once.
  destruct s as [|c s']; [discriminate|].
  destruct (code c =? 34)%N.
  { destruct (scan_string None s') as [[str r']|] eqn:E; [|discriminate].
    apply scan_string_length in E. intros [= _ <-]. simpl. lia. }
  destruct (code c =? 123)%N.
  { pose proof (skip_ws_length s') as Hw.
    destruct (skip_ws s') as [|c1 r1]; [discriminate|].
    destruct (code c1 =? 125)%N; [intros [= _ <-]; simpl in *; lia|].
    intros [ps E%Hm]%scan_map_rest. simpl in *. lia. }
  destruct (code c =? 91)%N.
  { pose proof (skip_ws_length s') as Hw.
    destruct (skip_ws s') as [|c1 r1]; [discriminate|].
    destruct (code c1 =? 93)%N; [intros [= _ <-]; simpl in *; lia|].
    intros [ps E%He]%scan_map_rest. simpl in *. lia. }
  assert (forall p n, String.prefix p (String c s') = true -> len p = n -> 0 < n ->
                      len (PyStr.drop n (String c s')) < len (String c s')) as Hdrop.
  { intros p n Hp%prefix_length <- Hn. rewrite drop_length. lia. }
  repeat match goal with
         | |- context [if String.prefix ?p ?t then Scanned _ (PyStr.drop ?n _) else _] =>
             destruct (String.prefix p t) eqn:?;
             [intros [= _ <-]; apply (Hdrop p n); [assumption|reflexivity|simpl; lia]|]
         end.
  destruct (scan_number _) as [[v' r']|] eqn:E.
  { apply scan_number_length in E. intros [= _ <-]. exact E. }
  repeat match goal with
         | |- context [if String.prefix ?p ?t then Scanned _ (PyStr.drop ?n _) else _] =>
             destruct (String.prefix p t) eqn:?;
             [intros [= _ <-]; apply (Hdrop p n); [assumption|reflexivity|simpl; lia]|]
         end.
  discriminate.
Qed.

Lemma array_items_shrinks value_at elements :
  shrinks value_at -> shrinks elements -> shrinks (array_items value_at elements).
Proof.
  intros Hv He s vs r. unfold array_items.
  destruct (value_at s) as [v r0| |] eqn:E; try discriminate. apply Hv in E.
  pose proof (skip_ws_length r0) as Hw.
  destruct (skip_ws r0) as [|c r']; [discriminate|].
  destruct (code c =? 93)%N; [intros [= _ <-]; simpl in *; lia|].
  destruct (code c =? 44)%N; [|discriminate].
  intros [vs' E'%He]%scan_map_rest.
  pose proof (skip_ws_length r'). simpl in *. lia.
Qed.

Lemma object_pairs_shrinks value_at members :
  shrinks value_at -> shrinks members -> shrinks (object_pairs value_at members).
Proof.
  intros Hv Hm s ps r. unfold object_pairs.
  destruct s as [|q s']; [discriminate|].
  destruct (code q =? 34)%N; [|discriminate].
  destruct (scan_string None s') as [[k r0]|] eqn:Ek; [|discriminate].
  apply scan_string_length in Ek.
  pose proof (skip_ws_length r0) as Hw0.
  destruct (skip_ws r0) as [|c r1]; [discriminate|].
  destruct (code c =? 58)%N; [|discriminate].
  pose proof (skip_ws_length r1) as Hw1.
  destruct (value_at (skip_ws r1)) as [v r2| |] eqn:E; try discriminate. apply Hv in E.
  pose proof (skip_ws_length r2) as Hw2.
  destruct (skip_ws r2) as [|c2 r3]; [discriminate|].
  destruct (code c2 =? 125)%N; [intros [= _ <-]; simpl in *; lia|].
  destruct (code c2 =? 44)%N; [|discriminate].
  intros [ps' E'%Hm]%scan_map_rest.
  pose proof (skip_ws_length r3). simpl in *. lia.
Qed.

Lemma parse_shrinks (fuel : nat) :
  shrinks (parse_value fuel) /\ shrinks (parse_elements fuel)
  /\ shrinks (parse_members fuel).
Proof.
  induction fuel as [|f (Hv & He & Hm)]; [repeat split; intros s a r; discriminate|].
  split; [|split].
  - apply scan_once_shrinks; assumption.
  - apply array_items_shrinks; assumption.
  - apply object_pairs_shrinks; assumption.
Qed.

Lemma scan_map_exhausted {A B : Type} (g : A -> B) (o : scan A) :
  scan_map g o = Exhausted -> o = Exhausted.
Proof. destruct o; simpl; congruence. Qed.

Lemma scan_once_runs members elements (s : string) :
  (forall s1, len s1 < len s -> members s1 <> Exhausted) ->
  (forall s1, len s1 < len s -> elements s1 <> Exhausted) ->
  scan_once members elements s <> Exhausted.
Proof.
  intros Hm He. unfold scan_once.
  destruct s as [|c s']; [discriminate|].
  pose proof (skip_ws_length s') as Hw.
  repeat match goal with
         | |- context [if ?b then _ else _] => destruct b
         | |- context [match scan_string ?h ?t with _ => _ end] =>
             destruct (scan_string h t) as [[? ?]|]
         | |- context [match scan_number ?t with _ => _ end] =>
             destruct (scan_number t) as [[? ?]|]
         | |- context [match skip_ws ?t with _ => _ end] =>
             destruct (skip_ws t) eqn:?
         end;
    try discriminate;
    intros E%scan_map_exhausted; revert E; [apply Hm|apply He]; simpl in *; lia.
Qed.

Lemma array_items_runs value_at elements (s : string) :
  shrinks value_at ->
  value_at s <> Exhausted ->
  (forall s1, len s1 + 2 <= len s -> elements s1 <> Exhausted) ->
  array_items value_at elements s <> Exhausted.
Proof.
  intros Hshr Hv He. unfold array_items.
  destruct (value_at s) as [v r| |] eqn:E; [|discriminate|contradiction].
  apply Hshr in E. pose proof (skip_ws_length r) as Hw.
  destruct (skip_ws r) as [|c r']; [discriminate|].
  destruct (code c =? 93)%N; [discriminate|].
  destruct (code c =? 44)%N; [|discriminate].
  intros E'%scan_map_exhausted. revert E'. apply He.
  pose proof (skip_ws_length r'). simpl in *. lia.
Qed.

Lemma object_pairs_runs value_at members (s : string) :
  shrinks value_at ->
  (forall s1, len s1 + 2 <= len s -> value_at s1 <> Exhausted) ->
  (forall s1, len s1 + 2 <= len s -> members s1 <> Exhausted) ->
  object_pairs value_at members s <> Exhausted.
Proof.
  intros Hshr Hv Hm. unfold object_pairs.
  destruct s as [|q s']; [discriminate|].
  destruct (code q =? 34)%N; [|discriminate].
  destruct (scan_string None s') as [[k r0]|] eqn:Ek; [|discriminate].
  apply scan_string_length in Ek.
  pose proof (skip_ws_length r0) as Hw0.
  destruct (skip_ws r0) as [|c r1]; [discriminate|].
  destruct (code c =? 58)%N; [|discriminate].
  pose proof (skip_ws_length r1) as Hw1.
  destruct (value_at (skip_ws r1)) as [v r2| |] eqn:E; [|discriminate|].
  - apply Hshr in E. pose proof (skip_ws_length r2) as Hw2.
    destruct (skip_ws r2) as [|c2 r3]; [discriminate|].
    destruct (code c2 =? 125)%N; [discriminate|].
    destruct (code c2 =? 44)%N; [|discriminate].
    intros E'%scan_map_exhausted. revert E'. apply Hm.
    pose proof (skip_ws_length r3). simpl in *. lia.
  - exfalso. revert E. apply Hv. simpl in *. lia.
Qed.

Lemma parse_budget (fuel : nat) (s : string) :
  (2 * len s + 1 <= fuel -> parse_value fuel s <> Exhausted)
  /\ (2 * len s + 2 <= fuel -> parse_elements fuel s <> Exhausted)
  /\ (2 * len s + 2 <= fuel -> parse_members fuel s <> Exhausted).
Proof.
  revert s. induction fuel as [|f IH]; intros s; [repeat split; lia|].
  destruct (parse_shrinks f) as (Hv & _ & _).
  split; [|split]; intros Hfuel; simpl.
  - apply scan_once_runs; intros s1 Hlen; apply IH; lia.
  - apply array_items_runs; [exact Hv| |intros s1 Hlen]; apply IH; lia.
  - apply object_pairs_runs; [exact Hv| |]; intros s1 Hlen; apply IH; lia.
Qed.

(** The budget [loads] gives the scanner is never exhausted. *)
Lemma parse_value_fuel (s : string) :
  parse_value (2 * len s + 1) s <> Exhausted.
Proof. apply parse_budget. lia. Qed.

End Budget.

(** ** Searching a document *)

Section Find.
Import Soup Page.

Lemma first_at_tag p name attrs cs :
  first_at p (Tag name attrs cs)
  = if p (Tag name attrs cs) then Some (Tag name attrs cs) else first_in p cs.
Proof.
  simpl. destruct (p _); [reflexivity|].
  induction cs as [|c cs IH]; simpl; [reflexivity|].
  destruct (first_at p c); [reflexivity|exact IH].
Qed.

Lemma first_in_none p doc c :
  first_in p doc = None -> In c doc -> first_at p c = None.
Proof.
  induction doc as [|c' doc IH]; simpl; [tauto|].
  destruct (first_at p c') eqn:E; [discriminate|].
  intros Hn [->|Hin]; auto.
Qed.

Lemma first_at_none p m n :
  first_at p m = None -> below n m -> p n = false.
Proof.
  intros Hnone Hb. induction Hb as [|name attrs cs c Hin Hb IH].
  - destruct n; simpl in Hnone; destruct (p _); congruence.
  - apply IH. rewrite first_at_tag in Hnone.
    destruct (p _); [discriminate|]. eapply first_in_none; eauto.
Qed.

Lemma first_in_missing p doc :
  first_in p doc = None -> forall n, within n doc -> p n = false.
Proof.
  intros Hnone n (c & Hin & Hb).
  eapply first_at_none; eauto using first_in_none.
Qed.

Lemma first_in_children p cs :
  Forall (fun c => forall n, first_at p c = Some n -> below n c /\ p n = true) cs ->
  forall n, first_in p cs = Some n -> within n cs /\ p n = true.
Proof.
  induction 1 as [|c cs Hc _ IH]; simpl; intros n; [discriminate|].
  destruct (first_at p c) eqn:Ec.
  - intros [= <-]. destruct (Hc _ eq_refl) as [Hb Hp].
    split; [|assumption]. exists c. split; [left; reflexivity|assumption].
  - intros Hn. destruct (IH _ Hn) as [(c' & Hin & Hb) Hp].
    split; [|assumption]. exists c'. split; [right|]; assumption.
Qed.

Lemma first_at_found p m :
  forall n, first_at p m = Some n -> below n m /\ p n = true.
Proof.
  induction m as [s|name attrs cs IH] using node_induction; intros n.
  - simpl. destruct (p _) eqn:E; [|discriminate].
    intros [= <-]. split; [constructor|assumption].
  - rewrite first_at_tag. destruct (p _) eqn:E.
    + intros [= <-]. split; [constructor|assumption].
    + intros Hn. destruct (first_in_children _ _ IH _ Hn) as [(c & Hin & Hb) Hp].
      split; [|assumption]. econstructor; eassumption.
Qed.

Lemma first_in_found p doc n :
  first_in p doc = Some n -> within n doc /\ p n = true.
Proof.
  apply first_in_children, Forall_forall. intros c _. apply first_at_found.
Qed.

Lemma has_attr_true name key val n :
  has_attr name key val n = true
  <-> exists attrs cs, n = Tag name attrs cs /\ attrs !! key = Some val.
Proof.
  destruct n as [nm attrs cs|s]; simpl; split.
  - intros [E1%String.eqb_eq E2%bool_decide_eq_true]%andb_true_iff. subst. eauto.
  - intros (attrs' & cs' & [= -> -> ->] & E). apply andb_true_iff.
    split; [apply String.eqb_refl|apply bool_decide_eq_true; assumption].
  - discriminate.
  - intros (? & ? & [=] & _).
Qed.

Lemma has_string_true name str n :
  has_string name str n = true
  <-> exists attrs cs, n = Tag name attrs cs /\ string_of n = Some str.
Proof.
  destruct n as [nm attrs cs|s]; split.
  - intros [E1%String.eqb_eq E2%bool_decide_eq_true]%andb_true_iff. subst. eauto.
  - intros (attrs' & cs' & [= -> -> ->] & E). apply andb_true_iff.
    split; [apply String.eqb_refl|apply bool_decide_eq_true; assumption].
  - discriminate.
  - intros (? & ? & [=] & _).
Qed.

(** The two [find] calls of the captcha test succeed on exactly the
    documents that hold a captcha marker. *)
Lemma captcha_found_iff doc :
  is_found (find_attrs doc "div" "id" "captcha")
  || is_found (find_string doc "title" "Anti-Bot Captcha") = true
  <-> has_captcha doc.
Proof.
  unfold find_attrs, find_string, has_captcha. split.
  - intros [E|E]%orb_true_iff.
    + destruct (first_in _ doc) as [n|] eqn:F; [|discriminate].
      apply first_in_found in F as [Hw (attrs & cs & -> & Hid)%has_attr_true].
      exists (Tag "div" attrs cs). split; [assumption|]. left. auto.
    + destruct (first_in (has_string _ _) doc) as [n|] eqn:F; [|discriminate].
      apply first_in_found in F as [Hw (attrs & cs & -> & Hstr)%has_string_true].
      exists (Tag "title" attrs cs). split; [assumption|]. right. auto.
  - intros (n & Hw & Hm). apply orb_true_iff.
    destruct n as [name attrs cs|s]; [|destruct Hm].
    destruct Hm as [[-> Hid]|[-> Hstr]]; [left|right].
    + destruct (first_in _ doc) eqn:F; [reflexivity|].
      eapply first_in_missing in F; [|exact Hw].
      assert (has_attr "div" "id" "captcha" (Tag "div" attrs cs) = true) as E
        by (apply has_attr_true; eauto).
      congruence.
    + destruct (first_in (has_string _ _) doc) eqn:F; [reflexivity|].
      eapply first_in_missing in F; [|exact Hw].
      assert (has_string "title" "Anti-Bot Captcha" (Tag "title" attrs cs) = true) as E
        by (apply has_string_true; eauto).
      congruence.
Qed.

Lemma no_captcha_test doc :
  ~ has_captcha doc ->
  is_found (find_attrs doc "div" "id" "captcha")
  || is_found (find_string doc "title" "Anti-Bot Captcha") = false.
Proof.
  intros Hno. apply not_true_is_false. intros E. apply Hno, captcha_found_iff, E.
Qed.


End Find.

(** ** The retry loop *)

Section Loop.
Context `{Externals}.

Lemma while_exit fuel config tries self w :
  _max_retries self <= tries ->
  search_list_while fuel config tries self w = (Raise DataNotFoundException, self, w).
Proof.
  intros Hle. apply Z.ltb_ge in Hle.
  destruct fuel; simpl; unfold bind, get_self; simpl; rewrite Hle; reflexivity.
Qed.

Lemma while_enter fuel config tries self w base :
  tries < _max_retries self ->
  list_url (_lang self) = Return base ->
  let r := request_of self base (QueryEncoderFactory_data config) in
  let res := server w (requests w) r in
  let self1 := with_session (session_after self res) self in
  let w1 := world_after_get self w r in
  let soup := BeautifulSoup (content res) in
  search_list_while (S fuel) config tries self w
  = (if is_found (Soup.find_attrs soup "div" "id" "captcha")
        || is_found (Soup.find_string soup "title" "Anti-Bot Captcha")
     then raise ReCaptchaRequiredException
     else
       match Soup.find_attrs soup "script" "id" "initial-state" with
       | None =>
           exec effect (write_file "out.html" (Text (text res))) ;;;
           do h <- _get_headers ;;;
           exec set_headers h ;;;
           do d <- random_uniform (_wait_range self) ;;;
           exec time_sleep d ;;;
           search_list_while fuel config (tries + 1)
       | Some script_tag =>
           do data <- json_loads (_parsejs_to_json (Soup.text script_tag)) ;;;
           do search <- getitem data "search" ;;;
           do st <- getitem search "stats" ;;;
           do results <- getitem data "searchResults" ;;;
           ret {| raw := data; stats := st; search_results := results |}
       end) self1 w1.
Proof.
  intros Hlt Hurl r res self1 w1 soup. apply Z.ltb_lt in Hlt.
  simpl. unfold bind at 1. unfold get_self at 1. rewrite Hlt.
  unfold bind at 1. unfold _LIST_URL, bind at 1, get_self, lift. rewrite Hurl.
  unfold bind at 1. rewrite get_eq. reflexivity.
Qed.
Lemma length_append (s t : string) :
  String.length (s +:+ t) = (String.length s + String.length t)%nat.
Proof. induction s as [|c s IH]; simpl; [reflexivity|]. rewrite IH. reflexivity. Qed.

Lemma session_file_not_diagnostic (tmp_dir : string) :
  session_file_path tmp_dir <> "out.html".
Proof.
  unfold session_file_path, path_join at 1. simpl String.prefix. cbv iota.
  intros E. apply (f_equal String.length) in E.
  destruct (_ || _); rewrite !length_append in E; simpl in E; lia.
Qed.

Lemma diagnostic_after_get (self : Auto24API) (w : World) (r : Request) :
  files (world_after_get self w r) !! "out.html" = files w !! "out.html".
Proof.
  unfold world_after_get.
  destruct (_use_session self); simpl; [|reflexivity].
  rewrite lookup_insert_ne by apply session_file_not_diagnostic.
  destruct (bool_decide _); reflexivity.
Qed.

Lemma fuel_positive (n : Z) : 1 <= n -> exists k, Z.to_nat n = S k.
Proof. intros Hn. exists (Nat.pred (Z.to_nat n)). lia. Qed.

(** C10: when [max_retries] is zero or negative, [search_list] raises
    [DataNotFoundException] at once: the loop body is never entered, so
    the object and the world (requests, files, sleeps) are left as they
    were. *)
Theorem search_list_no_attempt (config : Query) (self : Auto24API) (w : World) :
  _max_retries self <= 0 ->
  search_list config self w = (Raise DataNotFoundException, self, w).
Proof.
  intros Hle. unfold search_list, bind at 1, get_self at 1.
  apply while_exit. exact Hle.
Qed.

(** C3, amended: when [max_retries] is at least 1 and the first answer
    holds a captcha marker, [search_list] raises
    [ReCaptchaRequiredException] on the first attempt.  One request is
    sent; the only events are those of that one [_get]; no header is
    generated, no random number drawn, and [out.html] is not written. *)
Theorem search_list_captcha (config : Query) (self : Auto24API) (w : World)
    (base : string) :
  1 <= _max_retries self ->
  list_url (_lang self) = Return base ->
  let r := request_of self base (QueryEncoderFactory_data config) in
  let res := server w (requests w) r in
  Page.has_captcha (BeautifulSoup (content res)) ->
  exists self' w',
    search_list config self w = (Raise ReCaptchaRequiredException, self', w')
    /\ events w' = (events w ++ get_events self w r)%list
    /\ requests w' = S (requests w)
    /\ draws w' = draws w
    /\ randoms w' = randoms w
    /\ _headers self' = _headers self
    /\ files w' !! "out.html" = files w !! "out.html".
Proof.
  intros Hmax Hurl r res Hcap.
  destruct (fuel_positive _ Hmax) as [k Hk].
  exists (with_session (session_after self res) self), (world_after_get self w r).
  split.
  - unfold search_list, bind at 1, get_self at 1. rewrite Hk.
    rewrite (while_enter k config 0 self w base) by (assumption || lia).
    apply captcha_found_iff in Hcap. fold r res. rewrite Hcap. reflexivity.
  - destruct (frame_after_get self w r) as (Hreq & Hdraw & Hrand & _).
    repeat split;
      [apply events_after_get | exact Hreq | exact Hdraw | exact Hrand
      | apply diagnostic_after_get].
Qed.

Lemma search_list_found (config : Query) (self : Auto24API) (w : World)
    (base : string) (tag : Soup.node) :
  1 <= _max_retries self ->
  list_url (_lang self) = Return base ->
  let r := request_of self base (QueryEncoderFactory_data config) in
  let res := server w (requests w) r in
  ~ Page.has_captcha (BeautifulSoup (content res)) ->
  Soup.find_attrs (BeautifulSoup (content res)) "script" "id" "initial-state" = Some tag ->
  search_list config self w
  = (do data <- json_loads (_parsejs_to_json (Soup.text tag)) ;;;
     do search <- getitem data "search" ;;;
     do st <- getitem search "stats" ;;;
     do results <- getitem data "searchResults" ;;;
     ret {| raw := data; stats := st; search_results := results |})
      (with_session (session_after self res) self) (world_after_get self w r).
Proof.
  intros Hmax Hurl r res Hcap Hfind.
  destruct (fuel_positive _ Hmax) as [k Hk].
  unfold search_list, bind at 1, get_self at 1. rewrite Hk.
  rewrite (while_enter k config 0 self w base) by (assumption || lia).
  fold r res. rewrite (no_captcha_test _ Hcap), Hfind. reflexivity.
Qed.

Lemma payload_decoded :
  Json.loads (_parsejs_to_json Fixture.payload) = Some Fixture.payload_document.
Proof. vm_compute. reflexivity. Qed.

(** C1: when the first answer holds no captcha marker and the text of its
    initial-state script tag is the payload of the specification,
    [search_list] returns on the first attempt (one request, the events of
    one [_get]) a response whose [stats] is the object with [count] 5 and
    whose [search_results] is the list holding the object with [id] 1. *)
Theorem search_list_payload (config : Query) (self : Auto24API) (w : World)
    (base : string) (tag : Soup.node) :
  1 <= _max_retries self ->
  list_url (_lang self) = Return base ->
  let r := request_of self base (QueryEncoderFactory_data config) in
  let res := server w (requests w) r in
  ~ Page.has_captcha (BeautifulSoup (content res)) ->
  Soup.find_attrs (BeautifulSoup (content res)) "script" "id" "initial-state" = Some tag ->
  Soup.text tag = Fixture.payload ->
  exists self' w',
    search_list config self w
    = (Return {| raw := Fixture.payload_document;
                 stats := Json.JObj [("count", Json.JInt 5)];
                 search_results := Json.JArr [Json.JObj [("id", Json.JInt 1)]] |},
       self', w')
    /\ requests w' = S (requests w)
    /\ events w' = (events w ++ get_events self w r)%list.
Proof.
  intros Hmax Hurl r res Hcap Hfind Htext.
  exists (with_session (session_after self res) self), (world_after_get self w r).
  split; [|split; [apply frame_after_get|apply events_after_get]].
  rewrite (search_list_found config self w base tag) by assumption.
  unfold bind at 1, json_loads. rewrite Htext, payload_decoded. reflexivity.
Qed.








Lemma saved_after_get_events (self : Auto24API) (w : World) (r : Request)
    (rest : list Event) :
  _use_session self = true ->
  saved_after_get (session_file_path (_tmp_dir self)) (get_events self w r ++ rest)
  <-> saved_after_get (session_file_path (_tmp_dir self)) rest.
Proof.
  intros Huse. unfold get_events, save_events. rewrite Huse.
  destruct (bool_decide _); simpl; tauto.
Qed.

Lemma while_saves (config : Query) (fuel : nat) :
  forall (tries : Z) (self : Auto24API) (w : World),
    _use_session self = true ->
    exists new,
      events (snd (search_list_while fuel config tries self w))
      = (events w ++ new)%list
      /\ saved_after_get (session_file_path (_tmp_dir self)) new.
Proof.
  induction fuel as [|fuel IH]; intros tries self w Huse.
  - exists []. rewrite app_nil_r. simpl. unfold bind, get_self.
    destruct (tries <? _max_retries self); simpl; auto.
  - destruct (Z_lt_le_dec tries (_max_retries self)) as [Hlt|Hle];
      [|exists []; rewrite app_nil_r, while_exit by assumption; simpl; auto].
    destruct (list_url (_lang self)) as [base|e|] eqn:Hurl.
    + rewrite (while_enter fuel config tries self w base) by assumption.
      set (r := request_of self base (QueryEncoderFactory_data config)).
      set (res := server w (requests w) r).
      set (self1 := with_session (session_after self res) self).
      set (w1 := world_after_get self w r).
      assert (events w1 = (events w ++ get_events self w r)%list) as Hev
        by apply events_after_get.
      assert (forall tail,
                 saved_after_get (session_file_path (_tmp_dir self)) tail ->
                 saved_after_get (session_file_path (_tmp_dir self))
                   (get_events self w r ++ tail)) as Hsaved
        by (intros tail Ht; apply saved_after_get_events; assumption).
      destruct (_ || _).
      { exists (get_events self w r). split; [exact Hev|].
        rewrite <- (app_nil_r (get_events self w r)). apply Hsaved. exact I. }
      destruct (Soup.find_attrs _ _ _ _) as [tag|].
      { exists (get_events self w r). split.
        - rewrite <- Hev. unfold bind, json_loads, getitem, ret, raise.
          repeat (match goal with
                  | |- context [match ?x with _ => _ end] =>
                      match type of x with
                      | option _ => destruct x
                      | Json.value => destruct x
                      end
                  end; simpl; try reflexivity).
        - rewrite <- (app_nil_r (get_events self w r)). apply Hsaved. exact I. }
      unfold bind at 1, effect at 1. unfold bind at 1, _get_headers, generate_headers.
      unfold bind at 1, set_headers at 1. unfold bind at 1.
      set (out := Wrote "out.html" (Text (text res))).
      set (h := fake_headers _ _).
      set (self2 := with_headers h self1).
      set (w2 := log (GeneratedHeaders h) _).
      assert (events w2 = (events w ++ get_events self w r ++ [out; GeneratedHeaders h])%list)
        as Hev2.
      { subst w2. simpl. rewrite Hev, <- !app_assoc. reflexivity. }
      assert (saved_after_get (session_file_path (_tmp_dir self))
                (get_events self w r ++ [out; GeneratedHeaders h])) as Hsaved2
        by (apply Hsaved; exact I).
      destruct (_wait_range self) as [|a [|b [|c range]]];
        try (exists (get_events self w r ++ [out; GeneratedHeaders h])%list;
             split; [exact Hev2|exact Hsaved2]).
      unfold random_uniform, bind, get_world, effect, ret, time_sleep.
      destruct (_ && _); [destruct (Qle_bool 0 _)|];
        try (exists (get_events self w r ++ [out; GeneratedHeaders h])%list;
             split; [exact Hev2|exact Hsaved2]).
      set (d := (a + (b - a) * random_random w2 (randoms w2))%Q).
      destruct (IH (tries + 1) self2 (log (Slept d) (count_random w2)) Huse)
        as (new & Hnew & Hsav).
      exists (get_events self w r ++ [out; GeneratedHeaders h; Slept d] ++ new)%list.
      split.
      * unfold effect. cbv beta iota. rewrite Hnew.
        change (events (log (Slept d) (count_random w2)))
          with (events w2 ++ [Slept d])%list.
        rewrite Hev2, <- !app_assoc. reflexivity.
      * apply Hsaved. exact Hsav.
    + exists []. rewrite app_nil_r. apply Z.ltb_lt in Hlt.
      simpl. unfold bind, get_self, _LIST_URL, bind, get_self, lift.
      rewrite Hlt, Hurl. auto.
    + exists []. rewrite app_nil_r. apply Z.ltb_lt in Hlt.
      simpl. unfold bind, get_self, _LIST_URL, bind, get_self, lift.
      rewrite Hlt, Hurl. auto.
Qed.

(** C7, amended: with [use_session] set, [_get] has written the session,
    with the cookies of the answer, to the session file when it hands
    the answer back, whatever the answer is, and in every run of
    [search_list] each request is followed by that write.  With
    [use_session] unset, [_get] writes no file. *)
Theorem session_saved_after_request (config : Query) (base q : string)
    (self : Auto24API) (w : World) :
  let r := request_of self base q in
  let res := server w (requests w) r in
  let path := session_file_path (_tmp_dir self) in
  (_use_session self = true ->
   exists self' w',
     _get base q self w = (Return res, self', w')
     /\ _session self' = session_after self res
     /\ files w' !! path = Some (Pickled (_session self'))
     /\ events w' = (events w ++ [Printed (url r); HttpGet r] ++ save_events self' w)%list
     /\ exists new,
          events (snd (search_list config self w)) = (events w ++ new)%list
          /\ saved_after_get path new)
  /\ (_use_session self = false ->
      exists self' w',
        _get base q self w = (Return res, self', w')
        /\ files w' = files w
        /\ events w' = (events w ++ [Printed (url r); HttpGet r])%list).
Proof.
  intros r res path. split; intros Huse.
  - exists (with_session (session_after self res) self), (world_after_get self w r).
    split; [apply get_eq|]. split; [reflexivity|]. split; [|split].
    + unfold world_after_get. rewrite Huse. apply lookup_insert_eq.
    + rewrite events_after_get. unfold get_events. rewrite Huse. reflexivity.
    + unfold search_list, bind at 1, get_self at 1. apply while_saves, Huse.
  - exists (with_session (session_after self res) self), (world_after_get self w r).
    split; [apply get_eq|]. split.
    + unfold world_after_get. rewrite Huse. reflexivity.
    + rewrite events_after_get. unfold get_events. rewrite Huse, app_nil_r. reflexivity.
Qed.

Lemma extraction_runs (js : string) (self : Auto24API) (w : World) :
  fst (fst ((do data <- json_loads js ;;;
             do search <- getitem data "search" ;;;
             do st <- getitem search "stats" ;;;
             do results <- getitem data "searchResults" ;;;
             ret {| raw := data; stats := st; search_results := results |}) self w))
  <> OutOfFuel.
Proof.
  unfold bind, json_loads, getitem, ret, raise.
  repeat (match goal with
          | |- context [match ?x with _ => _ end] =>
              match type of x with
              | option _ => destruct x
              | Json.value => destruct x
              end
          end; simpl; try discriminate).
Qed.

Lemma while_terminates (config : Query) (fuel : nat) :
  forall (tries : Z) (self : Auto24API) (w : World),
    (Z.to_nat (_max_retries self - tries) <= fuel)%nat ->
    fst (fst (search_list_while fuel config tries self w)) <> OutOfFuel.
Proof.
  induction fuel as [|fuel IH]; intros tries self w Hfuel.
  - rewrite while_exit by lia. discriminate.
  - destruct (Z_lt_le_dec tries (_max_retries self)) as [Hlt|Hle];
      [|rewrite while_exit by assumption; discriminate].
    destruct (list_url (_lang self)) as [base|e|] eqn:Hurl.
    + rewrite (while_enter fuel config tries self w base) by assumption.
      destruct (_ || _); [discriminate|].
      destruct (Soup.find_attrs _ _ _ _) as [tag|]; [apply extraction_runs|].
      unfold bind at 1, effect at 1. unfold bind at 1, _get_headers, generate_headers.
      unfold bind at 1, set_headers at 1. unfold bind at 1.
      destruct (_wait_range self) as [|a [|b [|c range]]]; try discriminate.
      unfold random_uniform, bind, get_world, effect, ret, time_sleep.
      destruct (_ && _); [destruct (Qle_bool 0 _)|]; try discriminate.
      unfold effect. cbv beta iota. apply IH. simpl. lia.
    + apply Z.ltb_lt in Hlt.
      simpl. unfold bind, get_self, _LIST_URL, bind, get_self, lift.
      rewrite Hlt, Hurl. discriminate.
    + unfold list_url in Hurl. destruct (assoc _ _); discriminate.
Qed.

(** X1: [search_list] always ends: it returns or raises, whatever the
    site answers. *)
Theorem search_list_terminates (config : Query) (self : Auto24API) (w : World) :
  fst (fst (search_list config self w)) <> OutOfFuel.
Proof.
  unfold search_list, bind at 1, get_self at 1.
  apply while_terminates. rewrite Z.sub_0_r. lia.
Qed.

End Loop.

(** ** The constructor *)

Section Init.
Context `{Externals}.

Lemma supported_lang_in (lang : string) :
  supported_lang lang = true <-> In lang ["fr"; "de"; "it"].
Proof.
  unfold supported_lang. rewrite existsb_exists. split.
  - intros (x & Hin & ->%String.eqb_eq). exact Hin.
  - intros Hin. exists lang. split; [exact Hin|apply String.eqb_refl].
Qed.

Lemma load_session_outcome (use_session : bool) (headers : gmap string string)
    (proxies : option (gmap string string)) (tmp_dir : string) (w : World) :
  (exists s, load_session use_session headers proxies tmp_dir w = Return s)
  \/ load_session use_session headers proxies tmp_dir w = Raise UnpicklingError
  \/ load_session use_session headers proxies tmp_dir w = Raise EOFError
  \/ load_session use_session headers proxies tmp_dir w = Raise TypeError.
Proof.
  unfold load_session, pickle_load.
  destruct (if use_session then _ else _) as [[s|[|c t]]|]; eauto.
  destruct (requests_Session headers proxies); eauto.
Qed.

(** C5: a [lang] outside [fr], [de], [it] makes the constructor raise
    [InvalidArgsException] before it returns; a [lang] among the three
    passes the check, and the constructor does not raise the exception of
    the locale. *)
Theorem init_checks_lang (use_session bypass_captcha : bool)
    (headers proxies : option (gmap string string)) (wait_range : list Q)
    (max_retries : Z) (lang tmp_dir : string) (w : World) :
  let run := __init__ use_session bypass_captcha headers proxies wait_range
               max_retries lang tmp_dir w in
  (~ In lang ["fr"; "de"; "it"] ->
   run = (Raise (InvalidArgsException lang_message), snd (initial_headers headers w)))
  /\ (In lang ["fr"; "de"; "it"] ->
      fst run <> Raise (InvalidArgsException lang_message)).
Proof.
  unfold __init__. destruct (initial_headers headers w) as [hdrs w1]. simpl.
  split; intros Hlang.
  - destruct (supported_lang lang) eqn:E; [|reflexivity].
    apply supported_lang_in in E. contradiction.
  - apply supported_lang_in in Hlang. rewrite Hlang. simpl.
    destruct (bad_wait_range wait_range); [simpl; intros [= E]; discriminate E|].
    destruct (load_session_outcome use_session hdrs proxies tmp_dir w1)
      as [[s ->]|[-> | [-> | ->]]]; simpl; discriminate.
Qed.

Lemma bad_wait_range_true (wait_range : list Q) :
  bad_wait_range wait_range = true
  <-> length wait_range <> 2%nat
      \/ exists a b, wait_range = [a; b] /\ (b < a)%Q.
Proof.
  unfold bad_wait_range.
  destruct wait_range as [|a [|b [|c l]]]; simpl; split;
    try (intros _; left; discriminate); try reflexivity.
  - intros Hgt. right. exists a, b. split; [reflexivity|].
    apply Qnot_le_lt. intros Hle. apply Qle_bool_iff in Hle.
    rewrite Hle in Hgt. discriminate.
  - intros [Hlen|(a' & b' & [= <- <-] & Hlt)]; [contradiction|].
    destruct (Qle_bool a b) eqn:E; [|reflexivity].
    apply Qle_bool_iff in E. apply Qlt_not_le in Hlt. contradiction.
Qed.

(** C6: with a supported [lang], a [wait_range] whose length is not 2 or
    whose first element is greater than its second makes the constructor
    raise [InvalidArgsException]; a pair whose first element is at most
    the second is accepted: the constructor raises no
    [InvalidArgsException], and the object it returns once the session is
    loaded carries the pair. *)
Theorem init_checks_wait_range (use_session bypass_captcha : bool)
    (headers proxies : option (gmap string string)) (wait_range : list Q)
    (max_retries : Z) (lang tmp_dir : string) (w : World) :
  In lang ["fr"; "de"; "it"] ->
  let run := __init__ use_session bypass_captcha headers proxies wait_range
               max_retries lang tmp_dir w in
  let hdrs := fst (initial_headers headers w) in
  let w1 := snd (initial_headers headers w) in
  (length wait_range <> 2%nat \/ (exists a b, wait_range = [a; b] /\ (b < a)%Q) ->
   run = (Raise (InvalidArgsException wait_range_message), w1))
  /\ (forall a b, wait_range = [a; b] -> (a <= b)%Q ->
      (forall msg, fst run <> Raise (InvalidArgsException msg))
      /\ (forall s, load_session use_session hdrs proxies tmp_dir w1 = Return s ->
           exists self, run = (Return self, w1)
                        /\ _wait_range self = [a; b] /\ _session self = s)).
Proof.
  intros Hlang%supported_lang_in. unfold __init__.
  destruct (initial_headers headers w) as [hdrs w1]. simpl. rewrite Hlang. simpl.
  split.
  - intros Hbad%bad_wait_range_true. rewrite Hbad. reflexivity.
  - intros a b -> Hle.
    assert (bad_wait_range [a; b] = false) as ->.
    { apply not_true_is_false. intros [Hlen|(a' & b' & [= <- <-] & Hlt)]%bad_wait_range_true.
      - apply Hlen. reflexivity.
      - apply Qlt_not_le in Hlt. contradiction. }
    split.
    + intros msg.
      destruct (load_session_outcome use_session hdrs proxies tmp_dir w1)
        as [[s ->]|[-> | [-> | ->]]]; simpl; discriminate.
    + intros s ->. eexists. split; [reflexivity|]. split; reflexivity.
Qed.

(** C8, as the code has it: [listing_details] fails on the lookup of
    [_BASE_URL], an attribute the class does not define, before anything
    is encoded or sent. *)
Theorem listing_details_raises (config : Query) (self : Auto24API) (w : World) :
  listing_details config self w = (Raise (AttributeError "_BASE_URL"), self, w).
Proof. reflexivity. Qed.

End Init.

(** ** The cleanup of the script text *)

Section Cleanup.
Import PyStr.

Lemma append_assoc (s t u : string) : (s +:+ t) +:+ u = s +:+ (t +:+ u).
Proof.
  induction s as [|c s IH]; [reflexivity|].
  change (String c ((s +:+ t) +:+ u) = String c (s +:+ (t +:+ u))).
  rewrite IH. reflexivity.
Qed.

Lemma prefix_empty (s : string) : String.prefix "" s = true.
Proof. destruct s; reflexivity. Qed.

Lemma prefix_cons (c a : ascii) (o s : string) :
  String.prefix (String c o) (String a s)
  = if ascii_dec c a then String.prefix o s else false.
Proof. reflexivity. Qed.

Lemma prefix_append (old s : string) : String.prefix old (old +:+ s) = true.
Proof.
  induction old as [|c old IH]; [apply prefix_empty|].
  change (String c old +:+ s) with (String c (old +:+ s)).
  rewrite prefix_cons. destruct (ascii_dec c c); [exact IH|contradiction].
Qed.

Lemma replace_from_cons (old new : string) (a : ascii) (s : string) :
  replace_from old new O (String a s)
  = if String.prefix old (String a s)
    then new +:+ replace_from old new (Nat.pred (String.length old)) s
    else String a (replace_from old new O s).
Proof. reflexivity. Qed.

Lemma replace_from_skip (old new o s : string) :
  replace_from old new (String.length o) (o +:+ s) = replace_from old new O s.
Proof. induction o as [|c o IH]; [reflexivity|exact IH]. Qed.

(** An occurrence at the start is replaced, and the scan goes on after
    it. *)
Lemma replace_match (c : ascii) (o new s : string) :
  replace (String c o) new (String c o +:+ s)
  = new +:+ replace (String c o) new s.
Proof.
  unfold replace.
  change (String c o +:+ s) with (String c (o +:+ s)).
  rewrite replace_from_cons.
  change (String c (o +:+ s)) with (String c o +:+ s).
  rewrite prefix_append.
  change (Nat.pred (String.length (String c o))) with (String.length o).
  rewrite replace_from_skip. reflexivity.
Qed.

(** Where no occurrence starts, the character is kept. *)
Lemma replace_keep (c a : ascii) (o new s : string) :
  String.prefix (String c o) (String a s) = false ->
  replace (String c o) new (String a s)
  = String a (replace (String c o) new s).
Proof. unfold replace. intros E. rewrite replace_from_cons, E. reflexivity. Qed.

(** A text without occurrences is left as it is. *)
Lemma replace_absent (c : ascii) (o new s : string) :
  occurs (String c o) s = false -> replace (String c o) new s = s.
Proof.
  induction s as [|a s IH]; [reflexivity|].
  change (occurs (String c o) (String a s))
    with (String.prefix (String c o) (String a s) || occurs (String c o) s).
  intros [Hp Hs]%orb_false_iff. rewrite replace_keep by exact Hp.
  rewrite IH by exact Hs. reflexivity.
Qed.

(** The terminator at the end of a text is dropped when no other one
    comes before it. *)
Lemma replace_terminator (body : string) :
  occurs "};" (body +:+ "}") = false ->
  replace "};" "}" (body +:+ "};") = body +:+ "}".
Proof.
  induction body as [|a body IH]; [reflexivity|].
  change (String a body +:+ "}") with (String a (body +:+ "}")).
  change (String a body +:+ "};") with (String a (body +:+ "};")).
  change (occurs "};" (String a (body +:+ "}")))
    with (String.prefix "};" (String a (body +:+ "}")) || occurs "};" (body +:+ "}")).
  intros [Hp Hs]%orb_false_iff.
  rewrite replace_keep; [rewrite IH by exact Hs; reflexivity|].
  rewrite prefix_cons in Hp |- *.
  destruct (ascii_dec "}" a); [|reflexivity].
  destruct body as [|b body].
  - reflexivity.
  - change (String b body +:+ "}") with (String b (body +:+ "}")) in Hp.
    change (String b body +:+ "};") with (String b (body +:+ "};")).
    rewrite prefix_cons in Hp |- *.
    destruct (ascii_dec ";" b); [|reflexivity].
    rewrite prefix_empty in Hp. discriminate.
Qed.

(** The text before the first place where an occurrence starts is kept. *)
Lemma replace_before (c : ascii) (o new s t : string) :
  starts_in (String c o) s t = false ->
  replace (String c o) new (s +:+ t) = s +:+ replace (String c o) new t.
Proof.
  induction s as [|a s IH]; [reflexivity|].
  change (starts_in (String c o) (String a s) t)
    with (String.prefix (String c o) (String a s +:+ t) || starts_in (String c o) s t).
  change (String a s +:+ t) with (String a (s +:+ t)).
  intros [Hp Hs]%orb_false_iff.
  rewrite replace_keep by exact Hp. rewrite IH by exact Hs. reflexivity.
Qed.

Lemma char_in_drop (x : ascii) (n : nat) :
  forall s, char_in x (drop n s) = true -> char_in x s = true.
Proof.
  induction n as [|n IH]; intros s; [destruct s; exact (fun E => E)|].
  destruct s as [|a s]; [exact (fun E => E)|].
  intros E%IH. change (char_in x (String a s)) with (Ascii.eqb x a || char_in x s).
  rewrite E. apply orb_true_r.
Qed.

(** A pattern that starts within [s] and is a prefix of [s] followed by
    [x] either ends within [s] or runs over [x]. *)
Lemma prefix_over (x : ascii) (t : string) :
  forall s old,
    String.prefix old (s +:+ String x t) = true ->
    String.prefix old s = true \/ char_in x (drop (String.length s) old) = true.
Proof.
  induction s as [|b s IH]; intros [|a old].
  - left. reflexivity.
  - change ("" +:+ String x t) with (String x t). rewrite prefix_cons.
    destruct (ascii_dec a x) as [->|]; [|discriminate].
    intros _. right.
    change (Ascii.eqb x x || char_in x old = true).
    rewrite Ascii.eqb_refl. reflexivity.
  - left. reflexivity.
  - change (String b s +:+ String x t) with (String b (s +:+ String x t)).
    rewrite !prefix_cons.
    destruct (ascii_dec a b); [|discriminate].
    intros [E|E]%IH; [left; exact E|right; exact E].
Qed.

(** No occurrence of a pattern starts within a text that holds none, when
    the character that follows the text is not one of the pattern's after
    its first. *)
Lemma no_start (c : ascii) (o : string) (x : ascii) (t s : string) :
  char_in x o = false ->
  occurs (String c o) s = false ->
  starts_in (String c o) s (String x t) = false.
Proof.
  intros Hx. induction s as [|a s IH]; [reflexivity|].
  change (occurs (String c o) (String a s))
    with (String.prefix (String c o) (String a s) || occurs (String c o) s).
  change (starts_in (String c o) (String a s) (String x t))
    with (String.prefix (String c o) (String a s +:+ String x t)
          || starts_in (String c o) s (String x t)).
  intros [Hp Hs]%orb_false_iff. apply orb_false_iff. split; [|exact (IH Hs)].
  destruct (String.prefix (String c o) (String a s +:+ String x t)) eqn:E;
    [|reflexivity].
  apply prefix_over in E as [E|E]; [congruence|].
  change (drop (String.length (String a s)) (String c o))
    with (drop (String.length s) o) in E.
  apply char_in_drop in E. congruence.
Qed.

(** Every token of a text is replaced: a text made of parts that hold no
    occurrence of [old], joined by [old], becomes the same parts joined by
    [new].  The first character of [old] does not come back in it. *)
Lemma replace_tokens (c : ascii) (o new : string) (x : ascii) (t : string)
    (parts : list string) :
  char_in c o = false ->
  char_in x o = false ->
  Forall (fun s => occurs (String c o) s = false) parts ->
  replace (String c o) new (join (String c o) parts +:+ String x t)
  = join new parts +:+ replace (String c o) new (String x t).
Proof.
  intros Hc Hx Hparts. induction Hparts as [|s rest Hs Hrest IH]; [reflexivity|].
  destruct rest as [|s' rest].
  - apply replace_before, no_start; assumption.
  - change (join (String c o) (s :: s' :: rest))
      with (s +:+ String c o +:+ join (String c o) (s' :: rest)).
    change (join new (s :: s' :: rest)) with (s +:+ new +:+ join new (s' :: rest)).
    rewrite !append_assoc.
    change (String c o +:+ join (String c o) (s' :: rest) +:+ String x t)
      with (String c (o +:+ join (String c o) (s' :: rest) +:+ String x t)).
    rewrite replace_before by (apply no_start; assumption).
    change (String c (o +:+ join (String c o) (s' :: rest) +:+ String x t))
      with (String c o +:+ join (String c o) (s' :: rest) +:+ String x t).
    rewrite replace_match, IH. reflexivity.
Qed.

Lemma split_skip (sep : string) :
  forall s k, split_from sep k s = split_from sep O (drop k s).
Proof.
  induction s as [|c s IH]; intros [|k]; try reflexivity.
  exact (IH k).
Qed.

Lemma drop_shorter (k : nat) :
  forall s, (String.length (drop k s) <= String.length s)%nat.
Proof.
  induction k as [|k IH]; intros [|c s]; simpl; try lia.
  specialize (IH s). lia.
Qed.

Lemma prefix_drop :
  forall p s, String.prefix p s = true -> s = p +:+ drop (String.length p) s.
Proof.
  induction p as [|a p IH]; intros s; [destruct s; reflexivity|].
  destruct s as [|b s]; [discriminate|].
  rewrite prefix_cons. destruct (ascii_dec a b) as [->|]; [|discriminate].
  intros E%IH.
  change (String b s = String b (p +:+ drop (String.length p) s)).
  rewrite <- E. reflexivity.
Qed.

Lemma prefix_more :
  forall p s t, String.prefix p s = true -> String.prefix p (s +:+ t) = true.
Proof.
  induction p as [|a p IH]; intros s t; [intros _; apply prefix_empty|].
  destruct s as [|b s]; [discriminate|].
  change (String b s +:+ t) with (String b (s +:+ t)).
  rewrite !prefix_cons. destruct (ascii_dec a b); [apply IH|discriminate].
Qed.

Lemma join_cons (sep : string) (c : ascii) (p : string) (ps : list string) :
  join sep (String c p :: ps) = String c (join sep (p :: ps)).
Proof. destruct ps; reflexivity. Qed.

Lemma join_head (sep p : string) (ps : list string) :
  exists t, join sep (p :: ps) = p +:+ t.
Proof.
  destruct ps as [|q ps].
  - exists "". induction p as [|c p IH]; [reflexivity|].
    change (String c p = String c (p +:+ "")). rewrite <- IH. reflexivity.
  - eexists. reflexivity.
Qed.

Lemma split_parts (a : ascii) (o : string) (n : nat) :
  forall s, (String.length s <= n)%nat ->
    exists p ps,
      split_from (String a o) O s = p :: ps
      /\ join (String a o) (p :: ps) = s
      /\ Forall (fun x => occurs (String a o) x = false) (p :: ps).
Proof.
  induction n as [|n IH]; intros [|c s] Hlen;
    [exists "", []; repeat split; repeat constructor
    |simpl in Hlen; lia
    |exists "", []; repeat split; repeat constructor
    |].
  change (split_from (String a o) O (String c s))
    with (if String.prefix (String a o) (String c s)
          then "" :: split_from (String a o) (String.length o) s
          else match split_from (String a o) O s with
               | p :: ps => String c p :: ps
               | [] => [String c ""]
               end).
  destruct (String.prefix (String a o) (String c s)) eqn:E.
  - rewrite split_skip.
    destruct (IH (drop (String.length o) s)) as (p & ps & Hsplit & Hjoin & Hfree).
    { pose proof (drop_shorter (String.length o) s). simpl in Hlen. lia. }
    exists "", (p :: ps). rewrite Hsplit. split; [reflexivity|]. split.
    + change (join (String a o) ("" :: p :: ps))
        with (String a o +:+ join (String a o) (p :: ps)).
      rewrite Hjoin. symmetry. apply (prefix_drop _ _ E).
    + constructor; [reflexivity|exact Hfree].
  - destruct (IH s) as (p & ps & Hsplit & Hjoin & Hfree); [simpl in Hlen; lia|].
    exists (String c p), ps. rewrite Hsplit. split; [reflexivity|]. split.
    + rewrite join_cons, Hjoin. reflexivity.
    + apply Forall_cons in Hfree as [Hp Hps]. apply Forall_cons. split; [|exact Hps].
      change (occurs (String a o) (String c p))
        with (String.prefix (String a o) (String c p) || occurs (String a o) p).
      rewrite Hp, orb_false_r.
      destruct (String.prefix (String a o) (String c p)) eqn:E'; [|reflexivity].
      destruct (join_head (String a o) p ps) as (t & Ht).
      rewrite <- Hjoin, Ht in E.
      change (String c (p +:+ t)) with (String c p +:+ t) in E.
      rewrite (prefix_more _ _ t E') in E. discriminate.
Qed.

(** Every text is the join of its parts, and no part holds the
    separator. *)
Lemma split_join (a : ascii) (o s : string) :
  exists parts,
    split (String a o) s = Some parts
    /\ join (String a o) parts = s
    /\ Forall (fun x => occurs (String a o) x = false) parts.
Proof.
  destruct (split_parts a o (String.length s) s (le_n _))
    as (p & ps & Hsplit & Hjoin & Hfree).
  exists (p :: ps). unfold split. rewrite Hsplit. auto.
Qed.

(** C2, amended: on a text made of the assignment prefix, a body and the
    terminator, where the body is any number of parts without [undefined]
    joined by the token [undefined], the prefix occurs nowhere after the
    start, and the terminator occurs nowhere before the end once the
    tokens are replaced, the cleanup returns the parts joined by [null],
    followed by the closing brace: the prefix is stripped, every token
    [undefined] has become [null], and the terminator has lost its
    semicolon.  The result parses as JSON exactly as that text does.
    Every body is such a join, of the parts [body.split("undefined")].  In
    particular, on the payload whose entry [a] is [undefined] the result
    is the object text with [null] in that place, which parses as JSON. *)
Theorem parsejs_cleanup :
  (forall parts : list string,
      Forall (fun s => occurs "undefined" s = false) parts ->
      occurs "window.INITIAL_STATE = " (join "undefined" parts +:+ "};") = false ->
      occurs "};" (join "null" parts +:+ "}") = false ->
      _parsejs_to_json ("window.INITIAL_STATE = " +:+ join "undefined" parts +:+ "};")
      = join "null" parts +:+ "}"
      /\ Json.loads
           (_parsejs_to_json
              ("window.INITIAL_STATE = " +:+ join "undefined" parts +:+ "};"))
         = Json.loads (join "null" parts +:+ "}"))
  /\ (forall body : string,
        exists parts,
          split "undefined" body = Some parts
          /\ join "undefined" parts = body
          /\ Forall (fun s => occurs "undefined" s = false) parts)
  /\ _parsejs_to_json (dq "window.INITIAL_STATE = {'a':undefined};") = dq "{'a':null}"
  /\ Json.loads (_parsejs_to_json (dq "window.INITIAL_STATE = {'a':undefined};"))
     = Some (Json.JObj [("a", Json.JNull)]).
Proof.
  split; [|split; [intros body; apply split_join|split; vm_compute; reflexivity]].
  intros parts Hparts Hprefix Hterm.
  assert (_parsejs_to_json
            ("window.INITIAL_STATE = " +:+ join "undefined" parts +:+ "};")
          = join "null" parts +:+ "}")
    as E; [|rewrite E; split; reflexivity].
  unfold _parsejs_to_json.
  rewrite (replace_match "w" "indow.INITIAL_STATE = " ""
             (join "undefined" parts +:+ "};")).
  rewrite (replace_absent "w" "indow.INITIAL_STATE = ") by exact Hprefix.
  change ("" +:+ (join "undefined" parts +:+ "};"))
    with (join "undefined" parts +:+ "};").
  rewrite (replace_tokens "u" "ndefined" "null" "}" ";" parts eq_refl eq_refl Hparts).
  change (replace "undefined" "null" "};") with "};".
  apply replace_terminator. exact Hterm.
Qed.

End Cleanup.

(** ** The theorems on the fixtures *)

Section Instances.
Import Fixture.
#[local] Existing Instance externals.

Lemma fixture_no_captcha (js : string) : ~ Page.has_captcha (script_page js).
Proof. intros Hc%captcha_found_iff. vm_compute in Hc. discriminate. Qed.



Lemma search_list_payload_witness :
  exists self' w',
    search_list "make=bmw" (api true 3) (world payload)
    = (Return {| raw := payload_document;
                 stats := Json.JObj [("count", Json.JInt 5)];
                 search_results := Json.JArr [Json.JObj [("id", Json.JInt 1)]] |},
       self', w')
    /\ requests w' = 1%nat.
Proof.
  destruct (search_list_payload (H:=externals) "make=bmw" (api true 3) (world payload) fr_url script_tag)
    as (self' & w' & E & Hreq & _).
  - simpl. lia.
  - reflexivity.
  - apply fixture_no_captcha.
  - vm_compute. reflexivity.
  - reflexivity.
  - exists self', w'. split; [exact E|exact Hreq].
Defined.

Lemma parsejs_cleanup_witness :
  _parsejs_to_json
    (PyStr.dq "window.INITIAL_STATE = {'a':undefined,'b':[undefined,'x']};")
  = PyStr.dq "{'a':null,'b':[null,'x']}"
  /\ Json.loads
       (_parsejs_to_json
          (PyStr.dq "window.INITIAL_STATE = {'a':undefined,'b':[undefined,'x']};"))
     = Some (Json.JObj [("a", Json.JNull);
                        ("b", Json.JArr [Json.JNull; Json.JStr "x"])]).
Proof.
  destruct (proj1 parsejs_cleanup
              [PyStr.dq "{'a':"; PyStr.dq ",'b':["; PyStr.dq ",'x']"])
    as [Htext Hjson].
  - repeat constructor.
  - vm_compute. reflexivity.
  - vm_compute. reflexivity.
  - split; [exact Htext|].
    etransitivity; [exact Hjson|vm_compute; reflexivity].
Defined.

(** C2 as stated fails: the result need not be JSON; an occurrence of the
    prefix inside the text, of [undefined] inside a string and of the
    terminator before the end are replaced too. *)
Lemma parsejs_not_only_wrapping :
  Json.loads (_parsejs_to_json "window.INITIAL_STATE = {a: 1};") = None
  /\ _parsejs_to_json (PyStr.dq "{'k':'x = window.INITIAL_STATE = y'}")
     = PyStr.dq "{'k':'x = y'}"
  /\ _parsejs_to_json (PyStr.dq "{'k':'undefined'}") = PyStr.dq "{'k':'null'}"
  /\ _parsejs_to_json (PyStr.dq "{'a':'};','b':1}") = PyStr.dq "{'a':'}','b':1}".
Proof. repeat split; vm_compute; reflexivity. Qed.

Lemma search_list_captcha_witness :
  exists self' w',
    search_list "make=bmw" (api true 3) (world "captcha")
    = (Raise ReCaptchaRequiredException, self', w')
    /\ requests w' = 1%nat
    /\ files w' !! "out.html" = None.
Proof.
  destruct (search_list_captcha (H:=externals) "make=bmw" (api true 3) (world "captcha") fr_url)
    as (self' & w' & E & _ & Hreq & _ & _ & _ & Hout).
  - simpl. lia.
  - reflexivity.
  - apply captcha_found_iff. vm_compute. reflexivity.
  - exists self', w'. split; [exact E|]. split; [exact Hreq|exact Hout].
Defined.

(** C3 as stated fails: with [max_retries] zero the site is not asked at
    all, and the error is [DataNotFoundException], although its answer
    would hold a captcha marker. *)
Lemma search_list_captcha_zero_retries :
  Page.has_captcha (BeautifulSoup (content (server (world "captcha") O
     (request_of (api true 0) fr_url "make=bmw"))))
  /\ search_list "make=bmw" (api true 0) (world "captcha")
     = (Raise DataNotFoundException, api true 0, world "captcha").
Proof.
  split; [apply captcha_found_iff; vm_compute; reflexivity|reflexivity].
Qed.



Lemma init_checks_lang_witness :
  __init__ true false None None [2%Q; 5%Q] 3 "en" "." (world "bare")
  = (Raise (InvalidArgsException lang_message),
     snd (initial_headers None (world "bare")))
  /\ fst (__init__ true false None None [2%Q; 5%Q] 3 "de" "." (world "bare"))
     <> Raise (InvalidArgsException lang_message).
Proof.
  split.
  - apply (proj1 (init_checks_lang true false None None [2%Q; 5%Q] 3 "en" "."
                    (world "bare"))).
    intros [E|[E|[E|[]]]]; discriminate E.
  - apply (proj2 (init_checks_lang true false None None [2%Q; 5%Q] 3 "de" "."
                    (world "bare"))).
    simpl. auto.
Defined.

Lemma init_checks_wait_range_witness :
  __init__ true false None None [5%Q; 2%Q] 3 "fr" "." (session_world "bare")
  = (Raise (InvalidArgsException wait_range_message),
     snd (initial_headers None (session_world "bare")))
  /\ exists self,
      __init__ true false None None [2%Q; 5%Q] 3 "fr" "." (session_world "bare")
      = (Return self, snd (initial_headers None (session_world "bare")))
      /\ _wait_range self = [2%Q; 5%Q].
Proof.
  split.
  - apply (proj1 (init_checks_wait_range true false None None [5%Q; 2%Q] 3 "fr" "."
                    (session_world "bare") ltac:(simpl; auto))).
    right. exists 5%Q, 2%Q. split; [reflexivity|]. vm_compute. reflexivity.
  - destruct (proj2 (init_checks_wait_range true false None None [2%Q; 5%Q] 3 "fr" "."
                       (session_world "bare") ltac:(simpl; auto)) 2%Q 5%Q eq_refl)
      as [_ Hret].
    + vm_compute. discriminate.
    + destruct (Hret {| jar := ∅ |}) as (self & E & Hrange & _).
      * vm_compute. reflexivity.
      * exists self. split; [exact E|exact Hrange].
Defined.

Lemma session_saved_after_request_witness :
  (exists self' w',
      _get fr_url "make=bmw" (api true 3) (world "bare")
      = (Return (answer "bare"), self', w')
      /\ files w' !! session_file_path "." = Some (Pickled (_session self')))
  /\ (exists self' w',
        _get fr_url "make=bmw" (api false 3) (world "bare")
        = (Return (answer "bare"), self', w')
        /\ files w' = ∅).
Proof.
  split.
  - destruct (proj1 (session_saved_after_request (H:=externals) "make=bmw" fr_url "make=bmw"
                       (api true 3) (world "bare")) eq_refl)
      as (self' & w' & E & _ & Hfile & _).
    exists self', w'. split; [exact E|exact Hfile].
  - destruct (proj2 (session_saved_after_request (H:=externals) "make=bmw" fr_url "make=bmw"
                       (api false 3) (world "bare")) eq_refl)
      as (self' & w' & E & Hfiles & _).
    exists self', w'. split; [exact E|exact Hfiles].
Defined.

(** C7 as stated fails: with [use_session] unset a request is sent and
    no session file is written. *)
Lemma session_not_saved_without_use_session :
  requests (snd (search_list "make=bmw" (api false 1) (world "captcha"))) = 1%nat
  /\ files (snd (search_list "make=bmw" (api false 1) (world "captcha")))
     !! session_file_path "." = None.
Proof. split; vm_compute; reflexivity. Qed.



Lemma search_list_no_attempt_witness :
  search_list "make=bmw" (api true 0) (world "bare")
  = (Raise DataNotFoundException, api true 0, world "bare").
Proof. apply search_list_no_attempt. simpl. lia. Defined.

End Instances.

(** ** Every run of [search_list] *)

Section Runs.
Context `{Externals}.

Lemma extraction_outcome (js : string) (self : Auto24API) (w : World) :
  exists o,
    (do data <- json_loads js ;;;
     do search <- getitem data "search" ;;;
     do st <- getitem search "stats" ;;;
     do results <- getitem data "searchResults" ;;;
     ret {| raw := data; stats := st; search_results := results |}) self w
    = (o, self, w)
    /\ (forall resp, o = Return resp -> from_raw resp)
    /\ o <> Raise DataNotFoundException
    /\ o <> Raise ReCaptchaRequiredException.
Proof.
  unfold bind, json_loads, getitem, ret, raise.
  destruct (Json.loads js) as [data|];
    [|eexists; split; [reflexivity|]; split; [discriminate|split; discriminate]].
  destruct data as [| | | | | |d];
    try (eexists; split; [reflexivity|]; split; [discriminate|split; discriminate]).
  destruct (Json.dict_get "search" d) as [search|] eqn:Hs;
    [|eexists; split; [reflexivity|]; split; [discriminate|split; discriminate]].
  destruct search as [| | | | | |s];
    try (eexists; split; [reflexivity|]; split; [discriminate|split; discriminate]).
  destruct (Json.dict_get "stats" s) as [st|] eqn:Hst;
    [|eexists; split; [reflexivity|]; split; [discriminate|split; discriminate]].
  destruct (Json.dict_get "searchResults" d) as [results|] eqn:Hres;
    [|eexists; split; [reflexivity|]; split; [discriminate|split; discriminate]].
  eexists. split; [reflexivity|]. split; [|split; discriminate].
  intros resp [= <-]. exists d, s. auto.
Qed.

Lemma files_after_get (self : Auto24API) (w : World) (r : Request) (p : string) :
  _use_session self = false \/ p <> session_file_path (_tmp_dir self) ->
  files (world_after_get self w r) !! p = files w !! p.
Proof.
  unfold world_after_get. intros [Huse|Hp].
  - rewrite Huse. reflexivity.
  - destruct (_use_session self); simpl; [|reflexivity].
    rewrite lookup_insert_ne by congruence.
    destruct (bool_decide _); reflexivity.
Qed.

Lemma while_run (config : Query) (fuel : nat) :
  forall (tries : Z) (self : Auto24API) (w : World),
    (Z.to_nat (_max_retries self - tries) <= fuel)%nat ->
    exists o self' w',
      search_list_while fuel config tries self w = (o, self', w')
      /\ run_facts tries self w o self' w'.
Proof.
  assert (forall self, same_config self self) as Hsame by (intros s; repeat split).
  induction fuel as [|fuel IH]; intros tries self w Hfuel.
  - exists (Raise DataNotFoundException), self, w.
    rewrite while_exit by lia. split; [reflexivity|].
    unfold run_facts. repeat split; auto; try lia; try discriminate.
  - destruct (Z_lt_le_dec tries (_max_retries self)) as [Hlt|Hle].
    2:{ exists (Raise DataNotFoundException), self, w.
        rewrite while_exit by lia. split; [reflexivity|].
        unfold run_facts. repeat split; auto; try lia; try discriminate. }
    destruct (list_url (_lang self)) as [base|e|] eqn:Hurl.
    3:{ unfold list_url in Hurl. destruct (assoc _ _); discriminate. }
    2:{ exists (Raise e), self, w. split.
        - apply Z.ltb_lt in Hlt.
          simpl. unfold bind, get_self, _LIST_URL, bind, get_self, lift.
          rewrite Hlt, Hurl. reflexivity.
        - unfold list_url in Hurl. destruct (assoc _ _); [discriminate|].
          injection Hurl as <-.
          unfold run_facts. repeat split; auto; try lia; try discriminate. }
    rewrite (while_enter fuel config tries self w base) by assumption.
    set (r := request_of self base (QueryEncoderFactory_data config)).
    set (res := server w (requests w) r).
    set (self1 := with_session (session_after self res) self).
    set (w1 := world_after_get self w r).
    destruct (frame_after_get self w r) as (Hreq & _ & _ & Hsrv & _ & _).
    fold w1 in Hreq, Hsrv.
    assert (forall p, _use_session self = false \/ p <> session_file_path (_tmp_dir self) ->
                      files w1 !! p = files w !! p) as Hfiles
      by (intros p; apply files_after_get).
    assert (same_config self self1) as Hsame1 by repeat split.
    assert (1 <= Z.to_nat (_max_retries self - tries))%nat as Hleft by lia.
    assert (events w1 = (events w ++ get_events self w r)%list) as Hev
      by apply events_after_get.
    destruct (_ || _) eqn:Hcap.
    { exists (Raise ReCaptchaRequiredException), self1, w1. split; [reflexivity|].
      unfold run_facts.
      refine (conj Hsame1 (conj Hsrv (conj _ (conj _ (conj _ (conj _ _))))));
        try discriminate; [intros p _; apply Hfiles|lia|].
      intros _.
      exists (requests w), r, [Printed (url r)],
        (if _use_session self then save_events self1 w else []).
      split; [exact Hreq|]. split; [rewrite Hev; reflexivity|].
      split; [|apply captcha_found_iff; exact Hcap].
      intros r'. unfold save_events.
      destruct (_use_session self); [|simpl; tauto].
      destruct (bool_decide _); simpl; intuition discriminate. }
    destruct (Soup.find_attrs _ "script" _ _) as [tag|].
    { destruct (extraction_outcome (_parsejs_to_json (Soup.text tag)) self1 w1)
        as (o & Ho & Hraw & Hnf & Hnc).
      exists o, self1, w1. split; [exact Ho|].
      unfold run_facts. repeat split; auto; try lia; try contradiction. }
    unfold bind at 1, effect at 1. unfold bind at 1, _get_headers, generate_headers.
    unfold bind at 1, set_headers at 1. unfold bind at 1.
    set (out := Wrote "out.html" (Text (text res))).
    set (h := fake_headers _ _).
    set (self2 := with_headers h self1).
    set (w2 := log (GeneratedHeaders h) _).
    assert (requests w2 = S (requests w) /\ server w2 = server w
            /\ forall p, p <> "out.html" ->
                 _use_session self = false \/ p <> session_file_path (_tmp_dir self) ->
                 files w2 !! p = files w !! p) as (Hreq2 & Hsrv2 & Hfiles2).
    { subst w2. simpl. repeat split; [exact Hreq|exact Hsrv|].
      intros p Hp Hp'. rewrite lookup_insert_ne by congruence. apply Hfiles, Hp'. }
    assert (same_config self self2) as Hsame2 by repeat split.
    assert (events w2 = (events w ++ get_events self w r ++ [out; GeneratedHeaders h])%list)
      as Hev2.
    { subst w2. simpl. rewrite Hev, <- !app_assoc. reflexivity. }
    assert (forall e, e <> DataNotFoundException -> e <> ReCaptchaRequiredException ->
              run_facts tries self w (Raise e) self2 w2) as Hstop.
    { intros e He1 He2. unfold run_facts.
      repeat split; auto; try lia; try discriminate; try congruence. }
    destruct (_wait_range self) as [|a [|b [|c range]]] eqn:Hrange;
      try (eexists _, _, _; split; [reflexivity|apply Hstop; discriminate]).
    unfold random_uniform, bind, get_world, effect, ret, time_sleep.
    destruct (_ && _); [destruct (Qle_bool 0 _)|];
      try (eexists _, _, _; split; [reflexivity|apply Hstop; discriminate]).
    set (d := (a + (b - a) * random_random w2 (randoms w2))%Q).
    unfold effect. cbv beta iota.
    destruct (IH (tries + 1) self2 (log (Slept d) (count_random w2)))
      as (o & self' & w' & Hrun & Hfacts); [simpl; lia|].
    exists o, self', w'. split; [exact Hrun|].
    destruct Hfacts as (Hs & Hv & Hf & Hr & Hd & Hret & Hc).
    change (requests (log (Slept d) (count_random w2))) with (requests w2) in *.
    change (server (log (Slept d) (count_random w2))) with (server w2) in *.
    change (files (log (Slept d) (count_random w2))) with (files w2) in *.
    change (_max_retries self2) with (_max_retries self) in *.
    change (_use_session self2) with (_use_session self) in *.
    change (_tmp_dir self2) with (_tmp_dir self) in *.
    unfold run_facts.
    refine (conj _ (conj _ (conj _ (conj _ (conj _ (conj _ _)))))).
    + destruct Hs as (? & ? & ? & ? & ? & ? & ?).
      change (_wait_range self2) with (_wait_range self) in *.
      change (_bypass_captcha self2) with (_bypass_captcha self) in *.
      change (_proxies self2) with (_proxies self) in *.
      change (_lang self2) with (_lang self) in *.
      change (_use_session self2) with (_use_session self) in *.
      change (_max_retries self2) with (_max_retries self) in *.
      change (_tmp_dir self2) with (_tmp_dir self) in *.
      unfold same_config. repeat split; congruence.
    + congruence.
    + intros p Hp Hp'. rewrite Hf by assumption. apply Hfiles2; assumption.
    + lia.
    + intros E. rewrite (Hd E). lia.
    + intros resp E. destruct (Hret _ E). split; [assumption|lia].
    + intros E. destruct (Hc E) as (k & r' & sent & after & Hk & Hev' & Hafter & Hcap').
      exists k, r',
        (get_events self w r ++ [out; GeneratedHeaders h; Slept d] ++ sent)%list, after.
      split; [exact Hk|]. split; [|split; [exact Hafter|rewrite <- Hsrv2; exact Hcap']].
      rewrite Hev'.
      change (events (log (Slept d) (count_random w2)))
        with (events w2 ++ [Slept d])%list.
      rewrite Hev2, <- !app_assoc. reflexivity.
Qed.

Lemma search_list_run (config : Query) (self : Auto24API) (w : World) :
  exists o self' w',
    search_list config self w = (o, self', w') /\ run_facts 0 self w o self' w'.
Proof.
  unfold search_list, bind at 1, get_self at 1.
  apply while_run. rewrite Z.sub_0_r. lia.
Qed.

(** X2: a call of [search_list] sends at most [max_retries] requests, and
    it raises [DataNotFoundException] only after exactly that many. *)
Theorem search_list_request_bound (config : Query) (self : Auto24API) (w : World) :
  let run := search_list config self w in
  (requests w <= requests (snd run) <= requests w + Z.to_nat (_max_retries self))%nat
  /\ (fst (fst run) = Raise DataNotFoundException ->
      requests (snd run) = (requests w + Z.to_nat (_max_retries self))%nat).
Proof.
  destruct (search_list_run config self w) as (o & self' & w' & -> & Hf).
  destruct Hf as (_ & _ & _ & Hr & Hd & _). rewrite Z.sub_0_r in Hr, Hd.
  split; [exact Hr|exact Hd].
Qed.

(** X3: [search_list] assigns no attribute but [_headers] and the cookies
    of [_session]: the locale, the wait range, the retry budget, the
    proxies, the directory and the two switches are those it found. *)
Theorem search_list_keeps_config (config : Query) (self : Auto24API) (w : World) :
  same_config self (snd (fst (search_list config self w))).
Proof.
  destruct (search_list_run config self w) as (o & self' & w' & -> & Hf).
  apply Hf.
Qed.

(** X4: the only files [search_list] writes are [out.html] and, when
    sessions are in use, the session file: every other file is after the
    call what it was before. *)
Theorem search_list_writes_two_files (config : Query) (self : Auto24API)
    (w : World) (p : string) :
  p <> "out.html" ->
  _use_session self = false \/ p <> session_file_path (_tmp_dir self) ->
  files (snd (search_list config self w)) !! p = files w !! p.
Proof.
  intros Hp Hp'.
  destruct (search_list_run config self w) as (o & self' & w' & -> & Hf).
  destruct Hf as (_ & _ & Hfiles & _). apply Hfiles; assumption.
Qed.

(** X5: a response [search_list] returns is read from one document: its
    [raw] is an object, [stats] is the entry [stats] of the object under
    [search], [search_results] is the entry [searchResults], and at least
    one request was sent for it. *)
Theorem search_list_response_from_raw (config : Query) (self : Auto24API)
    (w : World) (resp : Auto24APISearchResponse) :
  fst (fst (search_list config self w)) = Return resp ->
  from_raw resp /\ (requests w < requests (snd (search_list config self w)))%nat.
Proof.
  destruct (search_list_run config self w) as (o & self' & w' & -> & Hf).
  destruct Hf as (_ & _ & _ & _ & _ & Hret & _). apply Hret.
Qed.

(** X6: [search_list] raises [ReCaptchaRequiredException] only when the
    answer to the last request it sent holds a captcha marker: the trace
    of the call ends with the sending of a request [r], followed by no
    other request, and the site's answer to [r], the last of the requests
    counted, holds the marker. *)
Theorem search_list_captcha_sound (config : Query) (self : Auto24API) (w : World) :
  fst (fst (search_list config self w)) = Raise ReCaptchaRequiredException ->
  exists k r sent after,
    requests (snd (search_list config self w)) = S k
    /\ events (snd (search_list config self w))
       = (events w ++ sent ++ HttpGet r :: after)%list
    /\ (forall r', ~ In (HttpGet r') after)
    /\ Page.has_captcha (BeautifulSoup (content (server w k r))).
Proof.
  destruct (search_list_run config self w) as (o & self' & w' & -> & Hf).
  destruct Hf as (_ & _ & _ & _ & _ & _ & Hc). apply Hc.
Qed.
End Runs.

(** ** Retries that end before the budget *)

Section Recovery.
Context `{Externals}.



End Recovery.

(** ** Objects and their sessions *)

Section Construction.
Context `{Externals}.


(** X11: the constructor sends no request and touches no file or
    directory, whether it returns or raises; it generates headers, once,
    exactly when it is given none. *)
Theorem init_leaves_world (use_session bypass_captcha : bool)
    (headers proxies : option (gmap string string)) (wait_range : list Q)
    (max_retries : Z) (lang tmp_dir : string) (w : World) :
  let w' := snd (__init__ use_session bypass_captcha headers proxies wait_range
                   max_retries lang tmp_dir w) in
  files w' = files w /\ dirs w' = dirs w /\ requests w' = requests w
  /\ randoms w' = randoms w
  /\ events w' = (events w ++ match headers with
                             | None => [GeneratedHeaders (fake_headers w (draws w))]
                             | Some _ => []
                             end)%list.
Proof.
  unfold __init__.
  assert (let w1 := snd (initial_headers headers w) in
          files w1 = files w /\ dirs w1 = dirs w /\ requests w1 = requests w
          /\ randoms w1 = randoms w
          /\ events w1 = (events w ++ match headers with
                                     | None => [GeneratedHeaders (fake_headers w (draws w))]
                                     | Some _ => []
                                     end)%list) as Hw.
  { destruct headers; simpl; repeat split; auto. rewrite app_nil_r. reflexivity. }
  destruct (initial_headers headers w) as [hdrs w1]. simpl in Hw |- *.
  destruct (negb (supported_lang lang)); [exact Hw|].
  destruct (bad_wait_range wait_range); [exact Hw|].
  destruct (load_session _ _ _ _ _); exact Hw.
Qed.

Lemma save_session_eq (self : Auto24API) (w : World) :
  _save_session self w
  = (Return tt, self,
     write_file (session_file_path (_tmp_dir self)) (Pickled (_session self))
       (if bool_decide (tmp_path (_tmp_dir self) ∈ dirs w) then w
        else make_dirs [path_join (_tmp_dir self) ".auto24api"; tmp_path (_tmp_dir self)]
               (tmp_path (_tmp_dir self)) w)).
Proof.
  unfold _save_session, bind, get_self, get_world, effect, ret.
  destruct (bool_decide _); reflexivity.
Qed.

(** X12: [_save_session] leaves the session directory in place and the
    session file holding the current session; called again, it creates no
    directory and only writes the file. *)
Theorem save_session_twice (self : Auto24API) (w : World) :
  let w1 := snd (_save_session self w) in
  let w2 := snd (_save_session self w1) in
  tmp_path (_tmp_dir self) ∈ dirs w1
  /\ files w1 !! session_file_path (_tmp_dir self) = Some (Pickled (_session self))
  /\ dirs w2 = dirs w1
  /\ files w2 = files w1
  /\ events w2 = (events w1 ++ [Wrote (session_file_path (_tmp_dir self))
                                  (Pickled (_session self))])%list.
Proof.
  cbv zeta.
  rewrite (save_session_eq self w). cbn [snd].
  set (dir := tmp_path (_tmp_dir self)).
  set (path := session_file_path (_tmp_dir self)).
  set (w1 := write_file path _ _).
  assert (dir ∈ dirs w1) as Hdir.
  { subst w1. fold dir. destruct (bool_decide (dir ∈ dirs w)) eqn:E; simpl.
    - apply bool_decide_eq_true in E. exact E.
    - set_solver. }
  assert (files w1 !! path = Some (Pickled (_session self))) as Hfile
    by (subst w1; apply lookup_insert_eq).
  rewrite (save_session_eq self w1). cbn [snd]. fold dir path.
  rewrite (bool_decide_eq_true_2 _ Hdir).
  repeat split; try assumption. simpl.
  apply insert_id. exact Hfile.
Qed.

(** X13: the session round trip.  After a request sent with sessions in
    use, a new object built on the same directory, with sessions in use,
    carries the session the first object ended with. *)
Theorem session_round_trip (base q : string) (self : Auto24API) (w : World)
    (bypass_captcha : bool) (headers proxies : option (gmap string string))
    (wait_range : list Q) (max_retries : Z) (lang : string) :
  _use_session self = true ->
  In lang ["fr"; "de"; "it"] ->
  bad_wait_range wait_range = false ->
  let self' := snd (fst (_get base q self w)) in
  let w' := snd (_get base q self w) in
  exists obj w'',
    __init__ true bypass_captcha headers proxies wait_range max_retries lang
      (_tmp_dir self) w' = (Return obj, w'')
    /\ _session obj = _session self'
    /\ _session self' = session_after self (server w (requests w) (request_of self base q)).
Proof.
  intros Huse Hlang%supported_lang_in Hrange. rewrite get_eq. cbn [fst snd].
  unfold __init__.
  set (w1 := world_after_get self w (request_of self base q)).
  assert (files (snd (initial_headers headers w1)) !! session_file_path (_tmp_dir self)
          = Some (Pickled (session_after self
                             (server w (requests w) (request_of self base q))))) as Hfile.
  { assert (files (snd (initial_headers headers w1)) = files w1) as ->
      by (destruct headers; reflexivity).
    subst w1. unfold world_after_get. rewrite Huse. apply lookup_insert_eq. }
  destruct (initial_headers headers w1) as [hdrs w2]. simpl in Hfile |- *.
  rewrite Hlang, Hrange. simpl. unfold load_session. rewrite Hfile. simpl.
  eexists _, _. split; [reflexivity|]. split; reflexivity.
Qed.
End Construction.

Section CleanText.
Import PyStr.

(** X14: a text in which none of the three patterns occurs, such as
    plain JSON, passes the cleanup unchanged. *)
Theorem parsejs_leaves_clean_text (js : string) :
  occurs "window.INITIAL_STATE = " js = false ->
  occurs "undefined" js = false ->
  occurs "};" js = false ->
  _parsejs_to_json js = js.
Proof.
  intros Hprefix Hundef Hterm. unfold _parsejs_to_json.
  rewrite (replace_absent "w" "indow.INITIAL_STATE = ") by exact Hprefix.
  rewrite (replace_absent "u" "ndefined") by exact Hundef.
  apply (replace_absent "}" ";"). exact Hterm.
Qed.
End CleanText.

(** ** The session file *)

Section Paths.


Lemma last_of_append (x : string) (c : ascii) (y : string) :
  String.get (Nat.pred (String.length (x +:+ String c y))) (x +:+ String c y)
  = String.get (String.length y) (String c y).
Proof.
  induction x as [|a x IH]; [reflexivity|].
  change (String a x +:+ String c y) with (String a (x +:+ String c y)).
  cbn [String.length Nat.pred].
  rewrite length_append in IH |- *. cbn [String.length] in IH |- *.
  replace (String.length x + S (String.length y))%nat
    with (S (String.length x + String.length y))%nat in IH |- * by lia.
  cbn [Nat.pred] in IH. cbn [String.get]. exact IH.
Qed.

Lemma join_plain (a b : string) (c : ascii) (rest : string) :
  String.prefix "/" b = false ->
  a = rest +:+ String c "" -> c <> "/"%char ->
  path_join a b = a +:+ "/" +:+ b.
Proof.
  intros Hb -> Hc. unfold path_join. rewrite Hb.
  assert (String.eqb (rest +:+ String c "") "" = false) as ->
    by (destruct rest; reflexivity).
  unfold ends_with_sep. rewrite last_of_append. cbn [String.length String.get].
  destruct (Ascii.eqb_spec c "/"); [contradiction|reflexivity].
Qed.

(** X15: where the session file lies.  Whatever [tmp_dir] is, empty or
    ending with a separator included, the directory is [tmp_dir] joined
    with [.auto24api], then [/tmp], and the file is [session.pkl] in
    it. *)
Theorem session_path_shape (tmp_dir : string) :
  let home := path_join tmp_dir ".auto24api" in
  (home = tmp_dir +:+ ".auto24api" \/ home = tmp_dir +:+ "/.auto24api")
  /\ tmp_path tmp_dir = home +:+ "/tmp"
  /\ session_file_path tmp_dir = home +:+ "/tmp/session.pkl".
Proof.
  cbv zeta.
  assert (exists rest, path_join tmp_dir ".auto24api" = rest +:+ "i") as [rest Hhome].
  { unfold path_join. change (String.prefix "/" ".auto24api") with false. cbv iota.
    destruct (_ || _).
    - exists (tmp_dir +:+ ".auto24ap"). rewrite append_assoc. reflexivity.
    - exists (tmp_dir +:+ "/.auto24ap"). rewrite append_assoc. reflexivity. }
  assert (tmp_path tmp_dir = path_join tmp_dir ".auto24api" +:+ "/tmp") as Htmp.
  { unfold tmp_path. apply (join_plain _ "tmp" "i" rest); [reflexivity|exact Hhome|].
    discriminate. }
  split; [|split; [exact Htmp|]].
  - unfold path_join. change (String.prefix "/" ".auto24api") with false. cbv iota.
    destruct (_ || _); auto.
  - unfold session_file_path. rewrite Htmp.
    rewrite (join_plain _ _SESSION_FILENAME "p"
               (path_join tmp_dir ".auto24api" +:+ "/tm")).
    + rewrite append_assoc. reflexivity.
    + reflexivity.
    + rewrite append_assoc. reflexivity.
    + discriminate.
Qed.
End Paths.

(** ** The further theorems on the fixtures *)

Section MoreInstances.
Import Fixture.
#[local] Existing Instance externals.


Lemma search_list_writes_two_files_witness :
  files (snd (search_list "make=bmw" (api true 3) (world "bare"))) !! "notes.txt"
  = files (world "bare") !! "notes.txt".
Proof.
  apply (search_list_writes_two_files (H:=externals) "make=bmw" (api true 3)
           (world "bare") "notes.txt").
  - discriminate.
  - right. vm_compute. discriminate.
Defined.

Lemma search_list_response_from_raw_witness :
  from_raw {| raw := payload_document;
              stats := Json.JObj [("count", Json.JInt 5)];
              search_results := Json.JArr [Json.JObj [("id", Json.JInt 1)]] |}.
Proof.
  apply (search_list_response_from_raw (H:=externals) "make=bmw" (api true 3)
           (world payload)).
  vm_compute. reflexivity.
Defined.

Lemma search_list_captcha_sound_witness :
  exists k r sent after,
    requests (snd (search_list "make=bmw" (api true 3) (world "captcha"))) = S k
    /\ events (snd (search_list "make=bmw" (api true 3) (world "captcha")))
       = (events (world "captcha") ++ sent ++ HttpGet r :: after)%list
    /\ (forall r', ~ In (HttpGet r') after)
    /\ Page.has_captcha (BeautifulSoup (content (server (world "captcha") k r))).
Proof.
  apply (search_list_captcha_sound (H:=externals) "make=bmw" (api true 3)
           (world "captcha")).
  vm_compute. reflexivity.
Defined.




Lemma session_round_trip_witness :
  exists obj w'',
    __init__ true false None None [2%Q; 5%Q] 3 "fr" "."
      (snd (_get fr_url "make=bmw" (api true 3) (world "bare")))
    = (Return obj, w'')
    /\ _session obj = _session (snd (fst (_get fr_url "make=bmw" (api true 3) (world "bare")))).
Proof.
  destruct (session_round_trip (H:=externals) fr_url "make=bmw" (api true 3)
              (world "bare") false None None [2%Q; 5%Q] 3 "fr")
    as (obj & w'' & E & Hs & _).
  - reflexivity.
  - simpl. auto.
  - vm_compute. reflexivity.
  - exists obj, w''. split; [exact E|exact Hs].
Defined.

Lemma parsejs_leaves_clean_text_witness :
  _parsejs_to_json (PyStr.dq "{'a':[1,2],'b':null}") = PyStr.dq "{'a':[1,2],'b':null}".
Proof. apply parsejs_leaves_clean_text; vm_compute; reflexivity. Defined.

End MoreInstances.
